(** * Contract metadata models: ABI resolution and de-duplication

    Shallow embedding of [safe_transaction_service/contracts/models.py]:
    the ABI validator, the [ContractAbi] and [Contract] tables with their
    methods, the two resolution entry points
    [ContractManager.create_from_address] and [Contract.sync_abi_from_api],
    and the logo bookkeeping ([get_contract_logo_path], the logo query
    sets, [ContractManager.fix_missing_logos]).

    Python values that the module stores or tests for truthiness are
    embedded as a [json] tree.  Code that touches the database or a
    metadata provider runs in a state-and-exception monad: a manager
    method over its own table, the resolution methods over a [world]
    holding both tables and the sequence of external calls made so far.

    The two tables are finite maps keyed by primary key.  What the
    manager methods do is modelled: [get] raising [DoesNotExist] or
    [MultipleObjectsReturned], [update_or_create] updating on a match and
    inserting otherwise, [create] refusing a primary key that is taken
    ([IntegrityError]), and a [save] restricted to some columns refusing
    a row that is not stored ([DatabaseError]).  No column of the two
    tables is nullable but [Contract.contract_abi]: an insert or a save
    that would write [None] anywhere else is refused ([IntegrityError]).
    The maximal lengths of the text columns are outside the model.
    Each manager call is one step on the table; nothing groups several
    calls into a transaction, as nothing in the module does.

    The collaborators of the module (Sourcify, the Etherscan client, the
    node, the settings, the file storages) are the fields of an [env];
    building the Sourcify client is taken not to fail.  A falsy
    [network] argument of [sync_abi_from_api] is [None]. *)

From stdpp Require Import gmap strings list fin_maps.
From Stdlib Require Import ZArith Ascii.

#[local] Set Warnings "-register-all".
#[local] Open Scope string_scope.
#[local] Open Scope list_scope.

(** ** Python values *)

(** Decoded JSON, as Python holds it.  [JNull] is [None].  An object is
    kept as its association list in a fixed key order, so that equality of
    stored values is equality of representations. *)
Inductive json : Type :=
| JNull
| JBool (b : bool)
| JNum (n : Z)
| JStr (s : string)
| JArr (xs : list json)
| JObj (kvs : list (string * json)).

Definition json_eq_dec : forall a b : json, {a = b} + {a <> b}.
Proof.
  fix IH 1. intros a b. decide equality.
  - apply bool_dec.
  - apply Z.eq_dec.
  - apply String.string_dec.
  - apply (List.list_eq_dec IH).
  - apply List.list_eq_dec. intros [k x] [k' y].
    decide equality. apply String.string_dec.
Defined.

#[global] Instance json_eq_decision : EqDecision json := json_eq_dec.

(** Python truth value testing: [None], [False], zero, and empty
    strings, lists and dicts are false. *)
Definition truthy (v : json) : bool :=
  match v with
  | JNull => false
  | JBool b => b
  | JNum n => negb (n =? 0)%Z
  | JStr s => negb (String.eqb s "")
  | JArr xs => negb (bool_decide (xs = []))
  | JObj kvs => negb (bool_decide (kvs = []))
  end.

(** ** validate_abi *)

(** Exceptions of the module and of the libraries it calls. *)
Inductive exn : Type :=
| IOError
| EtherscanClientConfigurationError
| DoesNotExist
| MultipleObjectsReturned
| IntegrityError
| DatabaseError
| ClientError
| FileNotFoundError
| PermissionError
| EndpointConnectionError
| KeyError
| TypeError.

(** How a call of a library function on an ABI ends: it returns, raises
    [ValueError] with a message, or raises something else. *)
Inductive normalized : Type :=
| Normalized
| ValueError (msg : string)
| OtherError (e : exn).

(** How [validate_abi] ends: it returns, raises [ValidationError] with
    the value and the reason as parameters, or lets an exception out. *)
Inductive validation : Type :=
| Valid
| ValidationError (value : json) (reason : string)
| Escapes (e : exn).

Section Validator.
(** [web3._utils.normalizers.normalize_abi], a library function. *)
Variable normalize_abi : json -> normalized.

Definition validate_abi (value : json) : validation :=
  let body :=
    if negb (truthy value) then ValueError "Empty ABI not allowed"
    else normalize_abi value in
  (* except ValueError as exc: raise ValidationError(...) *)
  match body with
  | Normalized => Valid
  | ValueError reason => ValidationError value reason
  | OtherError e => Escapes e
  end.
End Validator.

(** ** Rows *)

(** A [ContractAbi] row; its primary key is the key of the table. *)
Record ContractAbi : Type := mkContractAbi {
  abi : json;
  description : string;
  relevance : Z
}.

(** A [Contract] row; [contract_abi] is the nullable foreign key. *)
Record Contract : Type := mkContract {
  address : string;
  name : string;
  display_name : string;
  logo : string;
  contract_abi : option positive
}.

#[global] Instance ContractAbi_eq_decision : EqDecision ContractAbi.
Proof. solve_decision. Defined.

#[global] Instance Contract_eq_decision : EqDecision Contract.
Proof. solve_decision. Defined.

Definition get_main_name (self : Contract) : string :=
  if negb (String.eqb (display_name self) "") then display_name self
  else name self.

(** What Sourcify returns for a verified contract: the name and the
    ABI, each possibly [None]. *)
Record ContractMetadata : Type := mkContractMetadata {
  md_name : option string;
  md_abi : json
}.

(** ** External calls and the world *)

Inductive log_level : Type := INFO | ERROR.

(** Every call that leaves the process, and every record handed to the
    module's [logger]. *)
Inductive event : Type :=
| SourcifyGetContractMetadata (network : N) (addr : string)
| EtherscanClientInit (network : N) (api_key : option string)
| EtherscanGetContractAbi (network : N) (addr : string)
| StorageSize (file : string)
| Logged (level : log_level) (msg : string).

#[global] Instance log_level_eq_decision : EqDecision log_level.
Proof. solve_decision. Defined.

#[global] Instance event_eq_decision : EqDecision event.
Proof. solve_decision. Defined.

Definition is_explorer_call (e : event) : bool :=
  match e with
  | EtherscanClientInit _ _ | EtherscanGetContractAbi _ _ => true
  | _ => false
  end.

Definition is_logged (e : event) : bool :=
  match e with
  | Logged _ _ => true
  | _ => false
  end.

Record world : Type := mkWorld {
  contract_abis : gmap positive ContractAbi;
  contracts : gmap string Contract;
  trace : list event
}.

(** Result of one provider request. *)
Inductive fetched (A : Type) : Type :=
| Fetched (a : A)
| TransportError.
Arguments Fetched {A} a.
Arguments TransportError {A}.

(** The two file storages a logo can live in. *)
Inductive storage : Type := S3Storage | default_storage.

(** What asking a storage for the size of a file gives: the size, or
    the exception the storage raises. *)
Inductive size_result : Type :=
| SizeIs (n : N)
| SizeRaises (e : exn).

(** The collaborators of one run: both metadata providers, the node, the
    settings and the file storages. *)
Record env : Type := mkEnv {
  sourcify : N -> string -> fetched (option ContractMetadata);
  etherscan_configured : N -> option string -> bool;
  etherscan : N -> string -> fetched json;
  node_network : N;
  ETHERSCAN_API_KEY : option string;
  AWS_CONFIGURED : bool;
  storage_size : storage -> string -> size_result;
  storage_url : storage -> string -> string
}.

(** ** The monad *)

#[global] Instance exn_eq_decision : EqDecision exn.
Proof. solve_decision. Defined.

Inductive outcome (A : Type) : Type :=
| Returned (a : A)
| Raised (e : exn).
Arguments Returned {A} a.
Arguments Raised {A} e.

(** A computation over a state [S] that returns or raises.  The state
    reached when an exception is raised is kept: nothing is rolled back. *)
Definition St (S A : Type) : Type := S -> outcome A * S.

Definition ret {S A} (a : A) : St S A := fun s => (Returned a, s).

Definition raise {S A} (e : exn) : St S A := fun s => (Raised e, s).

Definition bind {S A B} (c : St S A) (k : A -> St S B) : St S B :=
  fun s =>
    match c s with
    | (Returned a, s') => k a s'
    | (Raised e, s') => (Raised e, s')
    end.

(** [try: body / except e: handler e].  An exception the handler does not
    name keeps propagating. *)
Definition try_except {S A} (body : St S A) (handler : exn -> option (St S A))
  : St S A :=
  fun s =>
    match body s with
    | (Returned a, s') => (Returned a, s')
    | (Raised e, s') =>
        match handler e with
        | Some h => h s'
        | None => (Raised e, s')
        end
    end.

Declare Scope py_scope.
Delimit Scope py_scope with py.
Notation "x <- c ;; k" := (bind c (fun x => k))
  (at level 100, c at next level, right associativity) : py_scope.
#[local] Open Scope py_scope.

Abbreviation abi_table := (gmap positive ContractAbi).
Abbreviation contract_table := (gmap string Contract).
Abbreviation M := (St world).

(** A manager method run inside a resolution method. *)
Definition on_abis {A} (c : St abi_table A) : M A :=
  fun w =>
    let r := c (contract_abis w) in
    (r.1, mkWorld r.2 (contracts w) (trace w)).

Definition on_contracts {A} (c : St contract_table A) : M A :=
  fun w =>
    let r := c (contracts w) in
    (r.1, mkWorld (contract_abis w) r.2 (trace w)).

Definition call (e : event) : M unit :=
  fun w => (Returned tt,
            mkWorld (contract_abis w) (contracts w) (trace w ++ [e])).

(** ** Managers *)

Module Abis.
(** [ContractAbi.objects.filter(abi=a)]. *)
Definition matching (a : json) (t : abi_table) : abi_table :=
  filter (fun kv => abi kv.2 = a) t.

(** [ContractAbi.objects.get(abi=a)]. *)
Definition get (a : json) : St abi_table (positive * ContractAbi) :=
  fun t =>
    match map_to_list (matching a t) with
    | [] => (Raised DoesNotExist, t)
    | [obj] => (Returned obj, t)
    | _ :: _ :: _ => (Raised MultipleObjectsReturned, t)
    end.

(** [obj.save()] of a row read from the table. *)
Definition save (obj : positive * ContractAbi) : St abi_table unit :=
  fun t => (Returned tt, <[obj.1 := obj.2]> t).

(** [ContractAbi.objects.create(abi=a, description=d)]: a new row under
    a key the table does not use yet, [relevance] at its default.  Neither
    column is nullable: [None] for either is refused. *)
Definition create (a : json) (d : option string)
  : St abi_table (positive * ContractAbi) :=
  fun t =>
    match d with
    | Some d =>
        if bool_decide (a = JNull) then (Raised IntegrityError, t)
        else
          let pk := fresh (dom t) in
          let row := mkContractAbi a d 100 in
          (Returned (pk, row), <[pk := row]> t)
    | None => (Raised IntegrityError, t)
    end.

(** [setattr(obj, k, v)] for every entry of [defaults]; the only default
    the module passes is a description. *)
Definition assign_defaults (defaults : option string) (row : ContractAbi)
  : ContractAbi :=
  match defaults with
  | Some d => mkContractAbi (abi row) d (relevance row)
  | None => row
  end.

(** [ContractAbi.objects.update_or_create(abi=a, defaults=...)], the
    defaults being none or a description that is a string.  On a match
    the defaults are assigned and the row saved; otherwise a row is
    created from the lookup and the defaults. *)
Definition update_or_create (a : json) (defaults : option string)
  : St abi_table ((positive * ContractAbi) * bool) :=
  found <- try_except (obj <- get a ;; ret (Some obj))
             (fun e => match e with
                       | DoesNotExist => Some (ret None)
                       | _ => None
                       end) ;;
  match found with
  | None =>
      obj <- create a (Some (default "" defaults)) ;;
      ret (obj, true)
  | Some obj =>
      let obj' := (obj.1, assign_defaults defaults obj.2) in
      _ <- save obj' ;;
      ret (obj', false)
  end.

(** [ContractAbi.objects.update_or_create(abi=a, defaults={'description':
    d})] with the description as a provider gives it.  With [None] the
    row found is not saved and the row to create is not inserted: the
    column is not nullable. *)
Definition update_or_create_described (a : json) (d : option string)
  : St abi_table ((positive * ContractAbi) * bool) :=
  match d with
  | Some d => update_or_create a (Some d)
  | None =>
      _ <- try_except (obj <- get a ;; ret (Some obj))
             (fun e => match e with
                       | DoesNotExist => Some (ret None)
                       | _ => None
                       end) ;;
      raise IntegrityError
  end.

(** [ContractAbi.clean]: the uniqueness check of model validation.
    [None] is no error, [Some (pk, d)] the [ValidationError] naming the
    duplicate found. *)
Definition clean (self_pk : option positive) (self_abi : json)
  : St abi_table (option (positive * string)) :=
  fun t =>
    let others :=
      match self_pk with
      | Some pk => delete pk t
      | None => t
      end in
    match map_to_list (matching self_abi others) with
    | [] => (Returned None, t)
    | [obj] => (Returned (Some (obj.1, description obj.2)), t)
    | _ :: _ :: _ => (Raised MultipleObjectsReturned, t)
    end.

(** Number of rows holding content [a]. *)
Definition count (a : json) (t : abi_table) : nat := size (matching a t).
End Abis.

Module Contracts.
(** [super().create(address=.., name=.., contract_abi=..)]: an insert.
    The other columns take their defaults; [address] is the primary key,
    so a stored address is refused, and so is [None] for the name. *)
Definition create (addr : string) (nm : option string)
    (abi_obj : option (positive * ContractAbi))
  : St contract_table Contract :=
  fun t =>
    match nm, t !! addr with
    | Some nm, None =>
        let c := mkContract addr nm "" "" (fst <$> abi_obj) in
        (Returned c, <[addr := c]> t)
    | _, _ => (Raised IntegrityError, t)
    end.

Definition set_contract_abi (fk : option positive) (c : Contract) : Contract :=
  mkContract (address c) (name c) (display_name c) (logo c) fk.

(** [self.save(update_fields=['contract_abi'])]: an update of that
    column of the row under [self.address], refused when no row is there. *)
Definition save_contract_abi (self : Contract) : St contract_table unit :=
  fun t =>
    match t !! address self with
    | Some _ =>
        (Returned tt,
         alter (set_contract_abi (contract_abi self)) (address self) t)
    | None => (Raised DatabaseError, t)
    end.

(** [ContractQuerySet.no_logo_query], [Q(logo=None) | Q(logo='')], on a
    stored row.  The column is not nullable, so a stored logo is a
    string and the first disjunct matches no row. *)
Definition no_logo_query (c : Contract) : bool := bool_decide (logo c = "").

(** [ContractQuerySet.with_logo]: [exclude(no_logo_query)]. *)
Definition with_logo (t : contract_table) : contract_table :=
  filter (fun kv => no_logo_query kv.2 = false) t.

(** [ContractQuerySet.without_logo]: [filter(no_logo_query)]. *)
Definition without_logo (t : contract_table) : contract_table :=
  filter (fun kv => no_logo_query kv.2 = true) t.

(** [contract.logo.name = filename]. *)
Definition set_logo (filename : string) (c : Contract) : Contract :=
  mkContract (address c) (name c) (display_name c) filename (contract_abi c).

(** [contract.save(update_fields=['logo'])]. *)
Definition save_logo (self : Contract) : St contract_table unit :=
  fun t =>
    match t !! address self with
    | Some _ => (Returned tt, alter (set_logo (logo self)) (address self) t)
    | None => (Raised DatabaseError, t)
    end.
End Contracts.

(** ** Providers *)

Section Resolver.
Variable E : env.

(** [Sourcify(network).get_contract_metadata(address)]. *)
Definition get_contract_metadata (network : N) (addr : string)
  : M (option ContractMetadata) :=
  _ <- call (SourcifyGetContractMetadata network addr) ;;
  match sourcify E network addr with
  | Fetched md => ret md
  | TransportError => raise IOError
  end.

(** [EtherscanClient(network, api_key=...)]: the constructor raises when
    the client cannot be configured. *)
Definition EtherscanClient (network : N) (api_key : option string) : M N :=
  _ <- call (EtherscanClientInit network api_key) ;;
  if etherscan_configured E network api_key then ret network
  else raise EtherscanClientConfigurationError.

(** [etherscan.get_contract_abi(address)]; [JNull] is [None]. *)
Definition get_contract_abi (client : N) (addr : string) : M json :=
  _ <- call (EtherscanGetContractAbi client addr) ;;
  match etherscan E client addr with
  | Fetched a => ret a
  | TransportError => raise IOError
  end.

(** ** ContractManager.create_from_address *)

Definition create_from_address (addr : string) (network_id : N)
  : M (option Contract) :=
  (* try: contract_metadata = ...  except IOError: return
     The outer [None] is that early return. *)
  fetched_md <- try_except
                  (md <- get_contract_metadata network_id addr ;; ret (Some md))
                  (fun e => match e with
                            | IOError => Some (ret None)
                            | _ => None
                            end) ;;
  match fetched_md with
  | None => ret None
  | Some (Some contract_metadata) =>
      abi_obj <- (if truthy (md_abi contract_metadata)
                  then r <- on_abis (Abis.update_or_create_described
                                       (md_abi contract_metadata)
                                       (md_name contract_metadata)) ;;
                       ret (Some r.1)
                  else ret None) ;;
      c <- on_contracts (Contracts.create addr (md_name contract_metadata)
                                          abi_obj) ;;
      ret (Some c)
  | Some None =>
      (* Fallback to etherscan API (no name for contract) *)
      try_except
        (client <- EtherscanClient network_id (ETHERSCAN_API_KEY E) ;;
         a <- get_contract_abi client addr ;;
         if truthy a then
           abi_obj <- on_abis
                        (try_except (Abis.get a)
                           (fun e => match e with
                                     | DoesNotExist =>
                                         Some (Abis.create a (Some ""))
                                     | _ => None
                                     end)) ;;
           c <- on_contracts (Contracts.create addr (Some "") (Some abi_obj)) ;;
           ret (Some c)
         else ret None)
        (fun e => match e with
                  | EtherscanClientConfigurationError => Some (ret None)
                  | _ => None
                  end)
  end.

(** ** Contract.sync_abi_from_api

    Returns the object as the call leaves it, and the boolean. *)
Definition sync_abi_from_api (self : Contract) (network : option N)
  : M (Contract * bool) :=
  let network := default (node_network E) network in
  abi_obj <- try_except
               (md <- get_contract_metadata network (address self) ;;
                match md with
                | Some contract_metadata =>
                    r <- on_abis (Abis.update_or_create_described
                                    (md_abi contract_metadata)
                                    (md_name contract_metadata)) ;;
                    ret (Some r.1)
                | None => ret None
                end)
               (fun e => match e with
                         | IOError => Some (ret None)
                         | _ => None
                         end) ;;
  abi_obj <- match abi_obj with
             | Some obj => ret (Some obj)
             | None =>
                 etherscan_api <- EtherscanClient network None ;;
                 try_except
                   (a <- get_contract_abi etherscan_api (address self) ;;
                    if truthy a then
                      r <- on_abis (Abis.update_or_create a None) ;;
                      ret (Some r.1)
                    else ret None)
                   (fun e => match e with
                             | IOError => Some (ret None)
                             | _ => None
                             end)
             end ;;
  match abi_obj with
  | Some obj =>
      let self' := Contracts.set_contract_abi (Some obj.1) self in
      _ <- on_contracts (Contracts.save_contract_abi self') ;;
      ret (self', true)
  | None => ret (self, false)
  end.
End Resolver.

(** ** Logo files *)

(** [get_file_storage]. *)
Definition get_file_storage (E : env) : storage :=
  if AWS_CONFIGURED E then S3Storage else default_storage.

(** [os.path.splitext] as [posixpath] has it, through
    [genericpath._splitext(p, '/', None, '.')]. *)
Module os_path.
(** [p.rfind(c)] for a one-character [c], scanning from index [i]: the
    highest index that holds [c], or [last] when none does. *)
Fixpoint rfind_from (c : Ascii.ascii) (p : string) (i last : Z) : Z :=
  match p with
  | EmptyString => last
  | String x p' =>
      rfind_from c p' (i + 1) (if Ascii.eqb x c then i else last)
  end.

Definition rfind (p : string) (c : Ascii.ascii) : Z := rfind_from c p 0 (-1).

(** [p[i:i+1] != '.'] *)
Definition not_extsep_at (p : string) (i : Z) : bool :=
  match String.get (Z.to_nat i) p with
  | Some x => negb (Ascii.eqb x "."%char)
  | None => true
  end.

(** The [while filenameIndex < dotIndex] loop, [steps] being
    [dotIndex - filenameIndex]: [true] when it reaches its [return], at
    the first character that is not a dot. *)
Fixpoint skips_leading_dots (p : string) (filenameIndex : Z) (steps : nat)
  : bool :=
  match steps with
  | O => false
  | S steps' =>
      if not_extsep_at p filenameIndex then true
      else skips_leading_dots p (filenameIndex + 1) steps'
  end.

Definition splitext (p : string) : string * string :=
  let sepIndex := rfind p "/"%char in
  let dotIndex := rfind p "."%char in
  if (sepIndex <? dotIndex)%Z
     && skips_leading_dots p (sepIndex + 1)
          (Z.to_nat (dotIndex - (sepIndex + 1)))
  then (String.substring 0 (Z.to_nat dotIndex) p,
        String.substring (Z.to_nat dotIndex) (String.length p - Z.to_nat dotIndex) p)
  else (p, "").
End os_path.

(** [get_contract_logo_path]. *)
Definition get_contract_logo_path (instance : Contract) (filename : string)
  : string :=
  let extension := (os_path.splitext filename).2 in
  "contracts/logos/" +:+ address instance +:+ extension.

(** [Contract.__str__]. *)
Definition Contract_str (self : Contract) : string :=
  let has_abi := match contract_abi self with
                 | Some _ => "True"
                 | None => "False"
                 end in
  let logo := if negb (bool_decide (logo self = ""))
              then " with logo" else " without logo" in
  "Contract " +:+ address self +:+ " - " +:+ name self
    +:+ " - with abi " +:+ has_abi +:+ logo.

Section Logos.
Variable E : env.

(** [contract.logo.size]: the storage is asked, and answers with the
    size or raises. *)
Definition logo_size (file : string) : M N :=
  _ <- call (StorageSize file) ;;
  match storage_size E (get_file_storage E) file with
  | SizeIs n => ret n
  | SizeRaises e => raise e
  end.

(** [contract.logo.url]. *)
Definition logo_url (file : string) : string :=
  storage_url E (get_file_storage E) file.

(** One round of the loop of [fix_missing_logos].  Of the calls inside
    the [try], only [contract.logo.size] can raise what the handler
    names, so the counter the handler sees is the one the round started
    with.  Any other exception of the storage leaves the round, and with
    it the loop. *)
Definition fix_missing_logo (contract : Contract) (synced_logos : nat)
  : M nat :=
  let filename :=
    get_contract_logo_path contract (address contract +:+ ".png") in
  let contract := Contracts.set_logo filename contract in
  try_except
    (size <- logo_size (logo contract) ;;
     if negb (size =? 0)%N then
       _ <- on_contracts (Contracts.save_logo contract) ;;
       _ <- call (Logged INFO
                    ("Found logo on url " +:+ logo_url (logo contract))) ;;
       ret (S synced_logos)
     else ret synced_logos)
    (fun e => match e with
              | ClientError | FileNotFoundError =>
                  Some (_ <- call (Logged ERROR
                                     ("Error retrieving url "
                                      +:+ logo_url (logo contract))) ;;
                        ret synced_logos)
              | _ => None
              end).

Fixpoint fix_each (todo : list Contract) (synced_logos : nat) : M nat :=
  match todo with
  | [] => ret synced_logos
  | contract :: todo' =>
      n <- fix_missing_logo contract synced_logos ;;
      fix_each todo' n
  end.

(** [ContractManager.fix_missing_logos]: the rows without a logo are
    read once, then visited one by one. *)
Definition fix_missing_logos : M nat :=
  fun w =>
    fix_each (map_to_list (Contracts.without_logo (contracts w))).*2 0 w.
End Logos.

(** ** ContractAbi.abi_functions *)

(** [x[k]] for a string [k]: only a dict can be subscripted with one. *)
Definition getitem (x : json) (k : string) : outcome json :=
  match x with
  | JObj kvs =>
      match List.find (fun kv => String.eqb (fst kv) k) kvs with
      | Some kv => Returned (snd kv)
      | None => Raised KeyError
      end
  | _ => Raised TypeError
  end.

(** [for x in v]: a list gives its items, a dict its keys, a string its
    characters; nothing else can be iterated. *)
Definition iterate (v : json) : outcome (list json) :=
  match v with
  | JArr xs => Returned xs
  | JObj kvs => Returned (JStr <$> kvs.*1)
  | JStr s => Returned ((fun c => JStr (String c EmptyString)) <$> String.list_ascii_of_string s)
  | _ => Raised TypeError
  end.

(** The comprehension [[x['name'] for x in xs if x['type'] == 'function']]. *)
Fixpoint function_names (xs : list json) : outcome (list json) :=
  match xs with
  | [] => Returned []
  | x :: xs' =>
      match getitem x "type" with
      | Raised e => Raised e
      | Returned ty =>
          if bool_decide (ty = JStr "function") then
            match getitem x "name" with
            | Raised e => Raised e
            | Returned nm =>
                match function_names xs' with
                | Returned nms => Returned (nm :: nms)
                | Raised e => Raised e
                end
            end
          else function_names xs'
      end
  end.

Definition abi_functions (self : ContractAbi) : outcome (list json) :=
  match iterate (abi self) with
  | Returned xs => function_names xs
  | Raised e => Raised e
  end.
(** * Vocabulary of the properties *)

(** The environment in which the canonical provider knows no contract. *)
Definition canonical_empty (E : env) : env :=
  mkEnv (fun _ _ => Fetched None) (etherscan_configured E) (etherscan E)
        (node_network E) (ETHERSCAN_API_KEY E) (AWS_CONFIGURED E)
        (storage_size E) (storage_url E).

(** Events a run has added to the trace. *)
Definition new_events (w w' : world) : list event :=
  drop (length (trace w)) (trace w').

(** The world after events [evs], with the tables given. *)
Definition after (w : world) (abis : abi_table) (cs : contract_table)
    (evs : list event) : world :=
  mkWorld abis cs (trace w ++ evs).

(** How [sync_abi_from_api] ends once a provider has supplied content
    and [update_or_create] has run on it: the record found or made is
    linked and the column saved, or an exception leaves the method. *)
Definition linked (self : Contract) (w : world) (evs : list event)
    (r : outcome ((positive * ContractAbi) * bool) * abi_table)
  : outcome (Contract * bool) * world :=
  match r.1 with
  | Returned obj =>
      match contracts w !! address self with
      | Some _ =>
          (Returned (Contracts.set_contract_abi (Some obj.1.1) self, true),
           after w r.2
             (alter (Contracts.set_contract_abi (Some obj.1.1))
                    (address self) (contracts w))
             evs)
      | None => (Raised DatabaseError, after w r.2 (contracts w) evs)
      end
  | Raised e => (Raised e, after w r.2 (contracts w) evs)
  end.

(** The two calls of [update_or_create] in [sync_abi_from_api]: with the
    name the canonical provider gives as description ([Some name], the
    name possibly [None]), and without defaults ([None]). *)
Definition store_content (a : json) (d : option (option string))
  : St abi_table ((positive * ContractAbi) * bool) :=
  match d with
  | Some nm => Abis.update_or_create_described a nm
  | None => Abis.update_or_create a None
  end.

(** What the two providers, asked in the order of [sync_abi_from_api],
    come up with for an address: content to store with the description
    to give it, nothing, or the explorer's refusal to be set up; and the
    requests this has taken. *)
Inductive answer : Type :=
| Content (a : json) (d : option (option string)) (evs : list event)
| NoContent (evs : list event)
| Misconfigured (evs : list event).

Definition providers_answer (E : env) (n : N) (addr : string) : answer :=
  match sourcify E n addr with
  | Fetched (Some md) =>
      Content (md_abi md) (Some (md_name md))
              [SourcifyGetContractMetadata n addr]
  | _ =>
      if etherscan_configured E n None then
        let evs := [SourcifyGetContractMetadata n addr;
                    EtherscanClientInit n None;
                    EtherscanGetContractAbi n addr] in
        match etherscan E n addr with
        | Fetched a => if truthy a then Content a None evs else NoContent evs
        | TransportError => NoContent evs
        end
      else Misconfigured [SourcifyGetContractMetadata n addr;
                          EtherscanClientInit n None]
  end.

(** How it ends when no provider has supplied content. *)
Definition unresolved (self : Contract) (w : world) (evs : list event)
  : outcome (Contract * bool) * world :=
  (Returned (self, false), after w (contract_abis w) (contracts w) evs).

(** The lookup-then-insert of the explorer branch of
    [create_from_address], as one run on the table. *)
Definition lookup_then_insert (a : json) : St abi_table (positive * ContractAbi) :=
  try_except (Abis.get a)
    (fun e => match e with
              | DoesNotExist => Some (Abis.create a (Some ""))
              | _ => None
              end).

(** How [create_from_address] ends once the ABI record to reference (or
    none) is settled by [r]: the contract is inserted under its address. *)
Definition created (addr : string) (nm : option string) (w : world)
    (evs : list event)
    (r : outcome (option (positive * ContractAbi)) * abi_table)
  : outcome (option Contract) * world :=
  match r.1 with
  | Returned abi_obj =>
      match nm, contracts w !! addr with
      | Some nm, None =>
          let c := mkContract addr nm "" "" (fst <$> abi_obj) in
          (Returned (Some c), after w r.2 (<[addr := c]> (contracts w)) evs)
      | _, _ => (Raised IntegrityError, after w r.2 (contracts w) evs)
      end
  | Raised e => (Raised e, after w r.2 (contracts w) evs)
  end.

(** The result of a manager call, as the optional record to reference. *)
Definition referenced {A} (f : A -> positive * ContractAbi)
    (r : outcome A * abi_table)
  : outcome (option (positive * ContractAbi)) * abi_table :=
  match r.1 with
  | Returned x => (Returned (Some (f x)), r.2)
  | Raised e => (Raised e, r.2)
  end.

(** The outcome of [sync_abi_from_api] on [self] from world [w]: with
    [True] the row under [self.address] has its [contract_abi] column set
    to a stored record and nothing else in the contract table differs;
    with [False], or when an exception leaves the method, the contract
    table is as before. *)
Definition writes_only_contract_abi (self : Contract) (w : world)
    (r : outcome (Contract * bool) * world) : Prop :=
  match r.1 with
  | Returned (self', true) =>
      exists pk,
        is_Some (contract_abis r.2 !! pk)
        /\ is_Some (contracts w !! address self)
        /\ self' = Contracts.set_contract_abi (Some pk) self
        /\ contracts r.2
           = alter (Contracts.set_contract_abi (Some pk)) (address self)
                   (contracts w)
  | Returned (self', false) =>
      self' = self
      /\ contracts r.2 = contracts w
      /\ contract_abis r.2 = contract_abis w
  | Raised e =>
      contracts r.2 = contracts w
      /\ (e = EtherscanClientConfigurationError
          \/ e = MultipleObjectsReturned
          \/ e = IntegrityError
          \/ e = DatabaseError)
  end.

(** The outcome of [create_from_address] for [addr] from world [w]:
    nothing returned and both tables as before; or a contract returned,
    inserted under an address that was free, with display name and logo
    at their defaults and a reference, if any, to a stored record whose
    content tests true; or an exception, the contract table as before. *)
Definition creates_one_contract (addr : string) (w : world)
    (r : outcome (option Contract) * world) : Prop :=
  match r.1 with
  | Returned None =>
      contracts r.2 = contracts w /\ contract_abis r.2 = contract_abis w
  | Returned (Some c) =>
      contracts w !! addr = None
      /\ address c = addr /\ display_name c = "" /\ logo c = ""
      /\ contracts r.2 = <[addr := c]> (contracts w)
      /\ (forall pk, contract_abi c = Some pk ->
                     exists row, contract_abis r.2 !! pk = Some row
                                 /\ truthy (abi row) = true)
  | Raised e =>
      contracts r.2 = contracts w
      /\ (e = IOError \/ e = MultipleObjectsReturned \/ e = IntegrityError)
  end.

(** Every reference of a contract row points to a stored ABI record. *)
Definition references_stored (w : world) : Prop :=
  forall k c pk,
    contracts w !! k = Some c -> contract_abi c = Some pk ->
    is_Some (contract_abis w !! pk).

(** The file [fix_missing_logos] looks for, for a contract. *)
Definition logo_file (c : Contract) : string :=
  get_contract_logo_path c (address c +:+ ".png").

(** Whether the storage holds that file, with a size that is not zero. *)
Definition logo_found (E : env) (c : Contract) : bool :=
  match storage_size E (get_file_storage E) (logo_file c) with
  | SizeIs n => negb (n =? 0)%N
  | _ => false
  end.

(** The exceptions [fix_missing_logos] handles. *)
Definition handled (e : exn) : bool :=
  match e with
  | ClientError | FileNotFoundError => true
  | _ => false
  end.

(** The exception of the storage that leaves the round for a contract,
    if any. *)
Definition logo_escapes (E : env) (c : Contract) : option exn :=
  match storage_size E (get_file_storage E) (logo_file c) with
  | SizeRaises e => if handled e then None else Some e
  | SizeIs _ => None
  end.

(** The events of the round of [fix_missing_logos] for a contract. *)
Definition logo_events (E : env) (c : Contract) : list event :=
  match storage_size E (get_file_storage E) (logo_file c) with
  | SizeIs n =>
      if negb (n =? 0)%N
      then [StorageSize (logo_file c);
            Logged INFO ("Found logo on url " +:+ logo_url E (logo_file c))]
      else [StorageSize (logo_file c)]
  | SizeRaises e =>
      if handled e
      then [StorageSize (logo_file c);
            Logged ERROR ("Error retrieving url "
                          +:+ logo_url E (logo_file c))]
      else [StorageSize (logo_file c)]
  end.

(** The contracts visited before the loop is left: all of them, or those
    before the first one at which the storage raises an exception that
    is not handled. *)
Fixpoint visited (E : env) (todo : list Contract) : list Contract :=
  match todo with
  | [] => []
  | c :: todo' =>
      match logo_escapes E c with
      | Some _ => []
      | None => c :: visited E todo'
      end
  end.

(** The exception that leaves the loop, if any. *)
Fixpoint escaping (E : env) (todo : list Contract) : option exn :=
  match todo with
  | [] => None
  | c :: todo' =>
      match logo_escapes E c with
      | Some e => Some e
      | None => escaping E todo'
      end
  end.

(** The contract table after the rounds for the contracts [todo]. *)
Definition logos_fixed (E : env) (todo : list Contract) (t : contract_table)
  : contract_table :=
  foldl (fun t c =>
           if logo_found E c
           then alter (Contracts.set_logo (logo_file c)) (address c) t
           else t)
        t todo.

(** The file and the storage's answer depend on the address only. *)
Definition logo_path (k : string) : string :=
  logo_file (mkContract k "" "" "" None).

Definition found_at (E : env) (k : string) : bool :=
  logo_found E (mkContract k "" "" "" None).


(** Uniqueness of contents, the invariant the data model asks for. *)
Definition abi_unique (t : abi_table) : Prop :=
  forall a, Abis.count a t <= 1.

(** Every contract row sits under its own address. *)
Definition keyed_by_address (t : contract_table) : Prop :=
  forall k c, t !! k = Some c -> address c = k.

(** ** Two resolutions of the same content at once

    Each of two workers runs the lookup-then-insert of the explorer
    branch; the queries are the steps, and a schedule says whose query
    the database answers next. *)
Module Race.
Inductive worker : Type :=
| Lookup
| Insert
| Finished (r : outcome (positive * ContractAbi)).

(** One query of a worker resolving content [a]. *)
Definition step (a : json) (th : worker) (t : abi_table)
  : worker * abi_table :=
  match th with
  | Lookup =>
      match Abis.get a t with
      | (Returned obj, t') => (Finished (Returned obj), t')
      | (Raised DoesNotExist, t') => (Insert, t')
      | (Raised e, t') => (Finished (Raised e), t')
      end
  | Insert => let r := Abis.create a (Some "") t in (Finished r.1, r.2)
  | Finished r => (Finished r, t)
  end.

Inductive tid : Type := T1 | T2.

Record state : Type := mkState {
  worker1 : worker;
  worker2 : worker;
  table : abi_table
}.

Definition sched_step (a : json) (s : state) (i : tid) : state :=
  match i with
  | T1 => let r := step a (worker1 s) (table s) in
          mkState r.1 (worker2 s) r.2
  | T2 => let r := step a (worker2 s) (table s) in
          mkState (worker1 s) r.1 r.2
  end.

Definition run (a : json) (schedule : list tid) (s : state) : state :=
  foldl (sched_step a) s schedule.

Definition start (t : abi_table) : state := mkState Lookup Lookup t.

Definition finished (s : state) : bool :=
  match worker1 s, worker2 s with
  | Finished _, Finished _ => true
  | _, _ => false
  end.
End Race.

(** ** Concrete inputs *)

Module Examples.
Definition erc20 : json :=
  JArr [JObj [("name", JStr "transfer"); ("type", JStr "function")];
        JObj [("name", JStr "Transfer"); ("type", JStr "event")]].

Definition token : string := "0x6B175474E89094C44Da98b954EedeAC495271d0F".

Definition other_token : string :=
  "0xdAC17F958D2ee523a2206206994597C13D831ec7".

(** The checks web3's [normalize_abi] starts with, in its order: the ABI
    is a list, its items are dicts, and every item is asked for its
    ['type'] when the functions are picked out, which raises [KeyError]
    on an item without one.  The check that follows (no two functions
    with the same selector) is left out. *)
Definition first_checks (v : json) : normalized :=
  match v with
  | JArr xs =>
      if forallb (fun x => match x with JObj _ => true | _ => false end) xs
      then
        if forallb (fun x => match getitem x "type" with
                             | Returned _ => true
                             | Raised _ => false
                             end) xs
        then Normalized
        else OtherError KeyError
      else ValueError "'abi' is not a list of dictionaries"
  | _ => ValueError "'abi' is not a list"
  end.

(** An environment in which every request has the same answer. *)
Definition providers (canonical : fetched (option ContractMetadata))
    (configured : bool) (explorer : fetched json) : env :=
  mkEnv (fun _ _ => canonical) (fun _ _ => configured) (fun _ _ => explorer)
        1%N None false (fun _ _ => SizeRaises FileNotFoundError)
        (fun _ file => file).

(** The canonical provider cannot be reached; the explorer has the ABI. *)
Definition canonical_down : env :=
  providers TransportError true (Fetched erc20).

(** The canonical provider knows the contract by name only. *)
Definition name_only : env :=
  providers (Fetched (Some (mkContractMetadata (Some "Bar") JNull))) true
            (Fetched erc20).

(** The canonical provider has an empty list for ABI. *)
Definition empty_list_abi : env :=
  providers (Fetched (Some (mkContractMetadata (Some "Bar") (JArr [])))) true
            (Fetched erc20).

(** The canonical provider has the full metadata. *)
Definition verified : env :=
  providers (Fetched (Some (mkContractMetadata (Some "Dai") erc20))) true
            (Fetched erc20).

(** The canonical provider knows nothing; the explorer cannot be
    reached, and cannot be set up without an API key. *)
Definition explorer_down : env :=
  mkEnv (fun _ _ => Fetched None) (fun _ api_key => bool_decide (is_Some api_key))
        (fun _ _ => TransportError) 1%N (Some "key") false
        (fun _ _ => SizeRaises FileNotFoundError) (fun _ file => file).

(** The canonical provider knows nothing and the explorer cannot be
    reached. *)
Definition both_silent : env :=
  providers (Fetched None) true TransportError.

(** No provider knows the contract; the storage holds a file of 2048
    bytes under every name. *)
Definition logos_uploaded : env :=
  mkEnv (fun _ _ => Fetched None) (fun _ _ => true) (fun _ _ => Fetched JNull)
        1%N None true (fun _ _ => SizeIs 2048) (fun _ file => file).


Definition empty_world : world := mkWorld ∅ ∅ [].

Definition stored_token : Contract := mkContract token "Dai" "" "" None.

(** One contract stored, without ABI. *)
Definition token_world : world :=
  mkWorld ∅ {[token := stored_token]} [].

Definition linked_token : Contract := mkContract token "Dai" "" "" (Some 1%positive).

(** The contract stored and linked to the one ABI record. *)
Definition linked_world : world :=
  mkWorld {[1%positive := mkContractAbi erc20 "Dai" 100]}
          {[token := linked_token]} [].
End Examples.
(** * Properties *)

(** ** The ABI table *)

Section AbiTable.
Implicit Types (t : abi_table) (a b : json) (row : ContractAbi) (pk : positive).

Lemma matching_lookup a t pk row :
  Abis.matching a t !! pk = Some row <-> t !! pk = Some row /\ abi row = a.
Proof. unfold Abis.matching. by rewrite map_lookup_filter_Some. Qed.

Lemma matching_singleton a t pk row :
  Abis.matching a t = {[pk := row]} -> t !! pk = Some row /\ abi row = a.
Proof.
  intros Hm. apply matching_lookup. rewrite Hm. apply lookup_singleton_eq.
Qed.

Lemma count_one_singleton a t pk row :
  Abis.count a t = 1 -> t !! pk = Some row -> abi row = a ->
  Abis.matching a t = {[pk := row]}.
Proof.
  unfold Abis.count. intros Hsz Hpk Ha.
  assert (Hin : Abis.matching a t !! pk = Some row).
  { by apply matching_lookup. }
  apply map_eq. intros k. destruct (decide (k = pk)) as [->|Hne].
  - by rewrite Hin, lookup_singleton_eq.
  - rewrite lookup_singleton_ne by done.
    destruct (Abis.matching a t !! k) as [r|] eqn:Hk; [|done].
    exfalso.
    assert (Hsub : ({[pk := row; k := r]} : abi_table) ⊆ Abis.matching a t).
    { apply map_subseteq_spec. intros i x Hi.
      apply lookup_insert_Some in Hi as [[<- <-]|[? Hi]]; [done|].
      apply lookup_singleton_Some in Hi as [<- <-]. done. }
    apply map_subseteq_size in Hsub.
    rewrite map_size_insert_None in Hsub.
    + rewrite map_size_singleton in Hsub. lia.
    + by rewrite lookup_singleton_ne.
Qed.

(** The three ways [get] ends. *)
Lemma get_cases a t :
  (Abis.matching a t = ∅ /\ Abis.get a t = (Raised DoesNotExist, t))
  \/ (exists pk row, Abis.matching a t = {[pk := row]}
                     /\ Abis.get a t = (Returned (pk, row), t))
  \/ (2 <= Abis.count a t /\ Abis.get a t = (Raised MultipleObjectsReturned, t)).
Proof.
  unfold Abis.get, Abis.count.
  destruct (map_to_list (Abis.matching a t)) as [|[pk row] [|obj' l]] eqn:Hl.
  - left. by apply map_to_list_empty_iff in Hl.
  - right. left. exists pk, row. split; [|done].
    rewrite <- (list_to_map_to_list (Abis.matching a t)), Hl. done.
  - right. right. split; [|done].
    rewrite <- length_map_to_list, Hl. simpl. lia.
Qed.

Lemma matching_empty_count a t : Abis.matching a t = ∅ <-> Abis.count a t = 0.
Proof. unfold Abis.count. by rewrite map_size_empty_iff. Qed.

Lemma matching_singleton_count a t pk row :
  Abis.matching a t = {[pk := row]} -> Abis.count a t = 1.
Proof. unfold Abis.count. intros ->. apply map_size_singleton. Qed.

(** The ways [update_or_create] ends. *)
Lemma update_or_create_cases a d t :
  (Abis.matching a t = ∅
   /\ Abis.update_or_create a d t
      = if bool_decide (a = JNull) then (Raised IntegrityError, t)
        else (Returned ((fresh (dom t), mkContractAbi a (default "" d) 100),
                        true),
              <[fresh (dom t) := mkContractAbi a (default "" d) 100]> t))
  \/ (exists pk row,
        Abis.matching a t = {[pk := row]}
        /\ Abis.update_or_create a d t
           = (Returned ((pk, Abis.assign_defaults d row), false),
              <[pk := Abis.assign_defaults d row]> t))
  \/ (2 <= Abis.count a t
      /\ Abis.update_or_create a d t = (Raised MultipleObjectsReturned, t)).
Proof.
  unfold Abis.update_or_create, bind, try_except, ret.
  destruct (get_cases a t) as [[Hm ->]|[(pk & row & Hm & ->)|[Hc ->]]].
  - left. split; [done|]. unfold Abis.create. by case_bool_decide.
  - right. left. exists pk, row. done.
  - right. right. done.
Qed.

Lemma assign_defaults_abi d row : abi (Abis.assign_defaults d row) = abi row.
Proof. by destruct d. Qed.

Lemma assign_defaults_relevance d row :
  relevance (Abis.assign_defaults d row) = relevance row.
Proof. by destruct d. Qed.

(** Writing a row back with the same content changes no count. *)
Lemma count_insert_same_abi b t pk row row' :
  t !! pk = Some row -> abi row' = abi row ->
  Abis.count b (<[pk := row']> t) = Abis.count b t.
Proof.
  intros Hpk Habi. unfold Abis.count, Abis.matching.
  destruct (decide (abi row = b)) as [Hb|Hb].
  - rewrite map_filter_insert_True; [|simpl; congruence].
    apply map_size_insert_Some. exists row.
    by apply map_lookup_filter_Some.
  - rewrite map_filter_insert_False; [|simpl; congruence].
    rewrite map_filter_delete. rewrite delete_id; [done|].
    apply map_lookup_filter_None. right. intros x Hx. simpl. congruence.
Qed.

(** A row under a new key adds one to the count of its content only. *)
Lemma count_insert_fresh b t row :
  Abis.count b (<[fresh (dom t) := row]> t)
  = if decide (abi row = b) then S (Abis.count b t) else Abis.count b t.
Proof.
  assert (Hfresh : t !! fresh (dom t) = None).
  { apply not_elem_of_dom. apply is_fresh. }
  unfold Abis.count, Abis.matching. case_decide as Hb.
  - rewrite map_filter_insert_True; [|done].
    apply map_size_insert_None.
    apply map_lookup_filter_None. by left.
  - rewrite map_filter_insert_False; [|done].
    by rewrite delete_id.
Qed.

(** [update_or_create] never adds to a content that is already stored,
    and stores a missing content once. *)
Lemma update_or_create_count a d t b :
  Abis.count b (Abis.update_or_create a d t).2
  = if decide (a = b /\ a <> JNull)
    then Nat.max 1 (Abis.count b t) else Abis.count b t.
Proof.
  destruct (update_or_create_cases a d t)
    as [[Hm ->]|[(pk & row & Hm & ->)|[Hc ->]]]; simpl.
  - apply matching_empty_count in Hm. case_bool_decide as Hnull; simpl.
    + rewrite decide_False; [done|]. by intros [_ ?].
    + rewrite count_insert_fresh. simpl.
      destruct (decide (a = b)) as [<-|Hne].
      * rewrite decide_True by done. by rewrite Hm.
      * rewrite decide_False; [done|]. by intros [? _].
  - destruct (matching_singleton _ _ _ _ Hm) as [Hpk Ha].
    rewrite (count_insert_same_abi b t pk row);
      [|done|apply assign_defaults_abi].
    apply matching_singleton_count in Hm.
    case_decide as Hd; [destruct Hd as [<- _]; by rewrite Hm|done].
  - case_decide as Hd; [destruct Hd as [<- _]; lia|done].
Qed.

(** [update_or_create_described] is [update_or_create] with the
    description, or ends in an exception without a write. *)
Lemma update_or_create_described_cases a d t :
  (exists s, d = Some s
             /\ Abis.update_or_create_described a d t
                = Abis.update_or_create a (Some s) t)
  \/ (d = None
      /\ exists e, Abis.update_or_create_described a d t = (Raised e, t)
                   /\ (e = MultipleObjectsReturned \/ e = IntegrityError)).
Proof.
  destruct d as [s|]; [left; by exists s|right]. split; [done|].
  unfold Abis.update_or_create_described, bind, try_except, ret, raise.
  destruct (get_cases a t) as [[Hm ->]|[(pk & row & Hm & ->)|[Hc ->]]]; eauto.
Qed.

(** The exceptions of the two calls, neither of which writes. *)
Lemma update_or_create_raises a d t e t' :
  Abis.update_or_create a d t = (Raised e, t') ->
  t' = t /\ (e = MultipleObjectsReturned \/ e = IntegrityError).
Proof.
  destruct (update_or_create_cases a d t)
    as [[_ ->]|[(pk & row & _ & ->)|[_ ->]]]; [|done|].
  - case_bool_decide; [|done]. intros [= <- <-]. auto.
  - intros [= <- <-]. auto.
Qed.

Lemma update_or_create_described_raises a d t e t' :
  Abis.update_or_create_described a d t = (Raised e, t') ->
  t' = t /\ (e = MultipleObjectsReturned \/ e = IntegrityError).
Proof.
  destruct (update_or_create_described_cases a d t)
    as [(s & _ & ->)|(_ & e' & -> & He)].
  - apply update_or_create_raises.
  - intros [= <- <-]. auto.
Qed.

(** The same for both calls of the module. *)
Lemma store_content_cases a d t :
  (exists d', store_content a d t = Abis.update_or_create a d' t)
  \/ (exists e, store_content a d t = (Raised e, t)
                /\ (e = MultipleObjectsReturned \/ e = IntegrityError)).
Proof.
  destruct d as [nm|]; [|left; by exists None]. cbn.
  destruct (update_or_create_described_cases a nm t)
    as [(s & _ & ->)|(_ & e & -> & He)]; eauto.
Qed.

Lemma update_or_create_unique a d t :
  abi_unique t -> abi_unique (Abis.update_or_create a d t).2.
Proof.
  intros Hu b. rewrite update_or_create_count. specialize (Hu b).
  case_decide; lia.
Qed.
End AbiTable.

(** ** An existing content is found, not inserted again *)

Lemma update_or_create_found a d (t : abi_table) pk row :
  t !! pk = Some row -> abi row = a -> Abis.count a t = 1 ->
  Abis.update_or_create a d t
  = (Returned ((pk, Abis.assign_defaults d row), false),
     <[pk := Abis.assign_defaults d row]> t).
Proof.
  intros Hpk Ha Hc.
  pose proof (count_one_singleton a t pk row Hc Hpk Ha) as Hm.
  destruct (update_or_create_cases a d t)
    as [[Hm' _]|[(pk' & row' & Hm' & Heq)|[Hc' _]]].
  - rewrite Hm in Hm'. by apply map_non_empty_singleton in Hm'.
  - rewrite Hm in Hm'.
    assert (Hl : ({[pk' := row']} : abi_table) !! pk = Some row).
    { rewrite <- Hm'. apply lookup_singleton_eq. }
    apply lookup_singleton_Some in Hl as [-> ->]. exact Heq.
  - lia.
Qed.

Lemma found_keeps_table_shape b d (t : abi_table) pk row :
  t !! pk = Some row ->
  Abis.count b (<[pk := Abis.assign_defaults d row]> t) = Abis.count b t
  /\ dom (<[pk := Abis.assign_defaults d row]> t) = dom t.
Proof.
  intros Hpk. split.
  - apply (count_insert_same_abi b t pk row); [done|].
    apply assign_defaults_abi.
  - apply dom_insert_lookup_L. by eexists.
Qed.

(** ** Resolution *)

(** Unfolds one resolution method down to the provider answers and the
    manager calls. *)
Ltac run_resolver :=
  cbv [create_from_address sync_abi_from_api get_contract_metadata
       EtherscanClient get_contract_abi bind try_except ret raise call
       on_abis on_contracts Contracts.create Contracts.save_contract_abi];
  cbn [fst snd contract_abis contracts trace address
       Contracts.set_contract_abi contract_abi].

Ltac has_run :=
  cbv [bind try_except ret raise call on_abis on_contracts
       Contracts.create Contracts.save_contract_abi];
  cbn [fst snd contract_abis contracts trace address
       Contracts.set_contract_abi contract_abi].

Lemma new_events_app w w' evs :
  trace w' = trace w ++ evs -> new_events w w' = evs.
Proof. unfold new_events. intros ->. by rewrite drop_app_length. Qed.

Lemma new_events_after w abis cs evs : new_events w (after w abis cs evs) = evs.
Proof. by apply new_events_app. Qed.

Section ResolverFacts.
Variable E : env.
Implicit Types (w : world) (self : Contract) (network : option N).

(** [sync_abi_from_api] when the canonical provider has metadata. *)
Lemma sync_abi_from_api_metadata self network w md :
  let n := default (node_network E) network in
  sourcify E n (address self) = Fetched (Some md) ->
  sync_abi_from_api E self network w
  = linked self w [SourcifyGetContractMetadata n (address self)]
      (Abis.update_or_create_described (md_abi md) (md_name md)
         (contract_abis w)).
Proof.
  intros n Hmd. unfold linked, after. run_resolver. fold n. rewrite Hmd. has_run.
  destruct (Abis.update_or_create_described (md_abi md) (md_name md)
              (contract_abis w)) as [[[obj flag]|e] t'] eqn:Hr; cbn.
  - destruct (contracts w !! address self); reflexivity.
  - by apply update_or_create_described_raises in Hr as [_ [-> | ->]].
Qed.

(** [sync_abi_from_api] when the canonical provider has nothing or cannot
    be reached: both cases continue with the explorer in the same way. *)
Lemma sync_abi_from_api_fallback self network w :
  let n := default (node_network E) network in
  let addr := address self in
  sourcify E n addr = Fetched None \/ sourcify E n addr = TransportError ->
  sync_abi_from_api E self network w
  = if etherscan_configured E n None then
      let evs := [SourcifyGetContractMetadata n addr;
                  EtherscanClientInit n None;
                  EtherscanGetContractAbi n addr] in
      match etherscan E n addr with
      | Fetched a =>
          if truthy a
          then linked self w evs (Abis.update_or_create a None (contract_abis w))
          else unresolved self w evs
      | TransportError => unresolved self w evs
      end
    else
      (Raised EtherscanClientConfigurationError,
       after w (contract_abis w) (contracts w)
             [SourcifyGetContractMetadata n addr; EtherscanClientInit n None]).
Proof.
  intros n addr Hmd. unfold linked, unresolved, after. run_resolver.
  fold n. fold addr.
  destruct Hmd as [-> | ->]; has_run;
    (destruct (etherscan_configured E n None); has_run;
     [|by rewrite <- app_assoc]);
    (destruct (etherscan E n addr) as [a|]; has_run;
     [|by rewrite <- !app_assoc]);
    (destruct (truthy a); has_run; [|by rewrite <- !app_assoc]);
    (destruct (Abis.update_or_create a None (contract_abis w))
       as [[[obj flag]|e] t'] eqn:Hr; cbn;
     [destruct (contracts w !! addr); cbn
     |apply update_or_create_raises in Hr as [_ [-> | ->]]];
     by rewrite <- !app_assoc).
Qed.

(** [create_from_address] when the canonical provider cannot be reached:
    the method returns at once. *)
Lemma create_from_address_unreachable addr network_id w :
  sourcify E network_id addr = TransportError ->
  create_from_address E addr network_id w
  = (Returned None,
     after w (contract_abis w) (contracts w)
           [SourcifyGetContractMetadata network_id addr]).
Proof. intros Hs. run_resolver. by rewrite Hs. Qed.

(** [create_from_address] when the canonical provider has metadata. *)
Lemma create_from_address_metadata addr network_id w md :
  sourcify E network_id addr = Fetched (Some md) ->
  create_from_address E addr network_id w
  = created addr (md_name md) w [SourcifyGetContractMetadata network_id addr]
      (if truthy (md_abi md)
       then referenced fst
              (Abis.update_or_create_described (md_abi md) (md_name md)
                                               (contract_abis w))
       else (Returned None, contract_abis w)).
Proof.
  intros Hs. unfold created, referenced, after. run_resolver. rewrite Hs. has_run.
  destruct (truthy (md_abi md)); has_run.
  - destruct (Abis.update_or_create_described (md_abi md) (md_name md)
                (contract_abis w)) as [[[obj flag]|e] t'] eqn:Hr; cbn.
    + destruct (md_name md), (contracts w !! addr); reflexivity.
    + by apply update_or_create_described_raises in Hr as [_ [-> | ->]].
  - destruct (md_name md), (contracts w !! addr); reflexivity.
Qed.

(** [create_from_address] when the canonical provider has nothing. *)
Lemma create_from_address_fallback addr network_id w :
  sourcify E network_id addr = Fetched None ->
  create_from_address E addr network_id w
  = let init := [SourcifyGetContractMetadata network_id addr;
                 EtherscanClientInit network_id (ETHERSCAN_API_KEY E)] in
    let evs := init ++ [EtherscanGetContractAbi network_id addr] in
    if etherscan_configured E network_id (ETHERSCAN_API_KEY E) then
      match etherscan E network_id addr with
      | Fetched a =>
          if truthy a
          then created addr (Some "") w evs
                 (referenced id (lookup_then_insert a (contract_abis w)))
          else (Returned None, after w (contract_abis w) (contracts w) evs)
      | TransportError =>
          (Raised IOError, after w (contract_abis w) (contracts w) evs)
      end
    else (Returned None, after w (contract_abis w) (contracts w) init).
Proof.
  intros Hs. unfold created, referenced, lookup_then_insert, after.
  run_resolver. rewrite Hs. has_run.
  destruct (etherscan_configured E network_id (ETHERSCAN_API_KEY E)); has_run;
    [|by rewrite <- app_assoc].
  destruct (etherscan E network_id addr) as [a|]; has_run;
    [|by rewrite <- !app_assoc].
  destruct (truthy a); has_run; [|by rewrite <- !app_assoc].
  destruct (get_cases a (contract_abis w))
    as [[_ ->]|[(pk & row & _ & ->)|[_ ->]]]; cbn;
    try (unfold Abis.create; case_bool_decide; cbn);
    try destruct (contracts w !! addr); cbn; by rewrite <- !app_assoc.
Qed.
End ResolverFacts.

(** The ways the lookup-then-insert ends. *)
Lemma lookup_then_insert_cases a (t : abi_table) :
  (Abis.matching a t = ∅
   /\ lookup_then_insert a t
      = if bool_decide (a = JNull) then (Raised IntegrityError, t)
        else (Returned (fresh (dom t), mkContractAbi a "" 100),
              <[fresh (dom t) := mkContractAbi a "" 100]> t))
  \/ (exists pk row,
        Abis.matching a t = {[pk := row]}
        /\ lookup_then_insert a t = (Returned (pk, row), t))
  \/ (2 <= Abis.count a t
      /\ lookup_then_insert a t = (Raised MultipleObjectsReturned, t)).
Proof.
  unfold lookup_then_insert, try_except.
  destruct (get_cases a t) as [[Hm ->]|[(pk & row & Hm & ->)|[Hc ->]]].
  - left. split; [done|]. unfold Abis.create. by case_bool_decide.
  - right. left. exists pk, row. done.
  - right. right. done.
Qed.
(** ** [sync_abi_from_api] in terms of the providers' answer *)

Lemma sync_abi_from_api_answer E self network w :
  sync_abi_from_api E self network w
  = match providers_answer E (default (node_network E) network) (address self) with
    | Content a d evs =>
        linked self w evs (store_content a d (contract_abis w))
    | NoContent evs => unresolved self w evs
    | Misconfigured evs =>
        (Raised EtherscanClientConfigurationError,
         after w (contract_abis w) (contracts w) evs)
    end.
Proof.
  unfold providers_answer.
  destruct (sourcify E (default (node_network E) network) (address self))
    as [[md|]|] eqn:Hs.
  - by rewrite (sync_abi_from_api_metadata _ _ _ _ md Hs).
  - rewrite sync_abi_from_api_fallback by auto. cbn zeta.
    destruct (etherscan_configured _ _ _); [|done].
    by destruct (etherscan _ _ _) as [a|]; [destruct (truthy a)|].
  - rewrite sync_abi_from_api_fallback by auto. cbn zeta.
    destruct (etherscan_configured _ _ _); [|done].
    by destruct (etherscan _ _ _) as [a|]; [destruct (truthy a)|].
Qed.

Lemma count_pos a (t : abi_table) pk row :
  t !! pk = Some row -> abi row = a -> 1 <= Abis.count a t.
Proof.
  intros Hpk Ha.
  destruct (Abis.count a t) eqn:Hc; [|lia].
  apply matching_empty_count in Hc.
  assert (Hin : Abis.matching a t !! pk = Some row) by by apply matching_lookup.
  by rewrite Hc in Hin.
Qed.

(** The record [update_or_create] returns is stored, holds the content
    asked for, and already carries the defaults. *)
Lemma update_or_create_returned a d (t t' : abi_table) obj flag :
  Abis.update_or_create a d t = (Returned (obj, flag), t') ->
  t' !! obj.1 = Some obj.2
  /\ abi obj.2 = a
  /\ Abis.assign_defaults d obj.2 = obj.2.
Proof.
  destruct (update_or_create_cases a d t)
    as [[_ ->]|[(pk & row & Hm & ->)|[_ ->]]]; [| |done].
  - case_bool_decide; [done|].
    intros [= <- <- <-]. cbn. split; [apply lookup_insert_eq|].
    by destruct d.
  - intros [= <- <- <-]. cbn. split; [apply lookup_insert_eq|].
    apply matching_singleton in Hm as [_ Ha].
    rewrite assign_defaults_abi. split; [done|]. by destruct d.
Qed.

(** Asking again for the content just resolved finds the same record and
    changes nothing. *)
Lemma update_or_create_again a d (t t' : abi_table) obj flag :
  abi_unique t ->
  Abis.update_or_create a d t = (Returned (obj, flag), t') ->
  Abis.update_or_create a d t' = (Returned (obj, false), t').
Proof.
  intros Hu Hfirst.
  destruct (update_or_create_returned a d t t' obj flag Hfirst)
    as (Hobj & Ha & Hd).
  assert (Hone : Abis.count a t' = 1).
  { pose proof (update_or_create_unique a d t Hu a) as Hle.
    rewrite Hfirst in Hle. cbn in Hle.
    pose proof (count_pos a t' obj.1 obj.2 Hobj Ha). lia. }
  rewrite (update_or_create_found a d t' obj.1 obj.2 Hobj Ha Hone).
  rewrite Hd, insert_id by done. by destruct obj.
Qed.

(** When a call of the module returns, it is [update_or_create] with a
    description that is a string, or without one. *)
Lemma store_content_returned a d (t t' : abi_table) x :
  store_content a d t = (Returned x, t') ->
  exists d', forall t0, store_content a d t0 = Abis.update_or_create a d' t0.
Proof.
  destruct d as [[s|]|]; unfold store_content.
  - intros _. by exists (Some s).
  - intros Hr.
    destruct (update_or_create_described_cases a None t)
      as [(s & [=] & _)|(_ & e & He & _)].
    by rewrite He in Hr.
  - intros _. by exists None.
Qed.

Lemma store_content_raises a d (t t' : abi_table) e :
  store_content a d t = (Raised e, t') ->
  t' = t /\ (e = MultipleObjectsReturned \/ e = IntegrityError).
Proof.
  destruct d as [nm|]; cbn;
    [apply update_or_create_described_raises|apply update_or_create_raises].
Qed.

(** The record a call returns is stored. *)
Lemma store_content_stored a d (t t' : abi_table) obj flag :
  store_content a d t = (Returned (obj, flag), t') ->
  t' !! obj.1 = Some obj.2 /\ abi obj.2 = a.
Proof.
  intros Hr. destruct (store_content_returned a d t t' _ Hr) as [d' Hd'].
  rewrite Hd' in Hr.
  by destruct (update_or_create_returned a d' t t' obj flag Hr) as (? & ? & _).
Qed.

Lemma store_content_again a d (t t' : abi_table) obj flag :
  abi_unique t ->
  store_content a d t = (Returned (obj, flag), t') ->
  store_content a d t' = (Returned (obj, false), t').
Proof.
  intros Hu Hr. destruct (store_content_returned a d t t' _ Hr) as [d' Hd'].
  rewrite Hd' in Hr. rewrite Hd'. by eapply update_or_create_again.
Qed.
(** ** What a run of [sync_abi_from_api] may change *)

Lemma linked_writes_only_contract_abi self w evs a d :
  writes_only_contract_abi self w
    (linked self w evs (store_content a d (contract_abis w))).
Proof.
  unfold writes_only_contract_abi, linked.
  destruct (store_content a d (contract_abis w))
    as [[[obj flag]|e] t'] eqn:Hr; cbn [fst snd].
  - destruct (store_content_stored _ _ _ _ _ _ Hr) as [Hobj _].
    destruct (contracts w !! address self) as [stored|] eqn:Hs; cbn.
    + exists obj.1. rewrite Hobj. eauto.
    + auto.
  - apply store_content_raises in Hr as [_ He]. cbn. split; [done|].
    destruct He as [-> | ->]; auto.
Qed.

Lemma unresolved_writes_only_contract_abi self w evs :
  writes_only_contract_abi self w (unresolved self w evs).
Proof. by cbn. Qed.

(** Every outcome of [sync_abi_from_api] has that shape. *)
Lemma sync_abi_from_api_writes E self network w :
  writes_only_contract_abi self w (sync_abi_from_api E self network w).
Proof.
  rewrite sync_abi_from_api_answer.
  destruct (providers_answer _ _ _) as [a d evs|evs|evs].
  - apply linked_writes_only_contract_abi.
  - apply unresolved_writes_only_contract_abi.
  - cbn. auto.
Qed.

(** [alter] on the contract table, read column by column. *)
Lemma set_contract_abi_row fk (t : contract_table) addr stored :
  t !! addr = Some stored ->
  alter (Contracts.set_contract_abi fk) addr t !! addr
  = Some (mkContract (address stored) (name stored) (display_name stored)
                     (logo stored) fk).
Proof. intros Hs. by rewrite lookup_alter_eq, Hs. Qed.

Lemma set_contract_abi_others fk (t : contract_table) addr other :
  other <> addr ->
  alter (Contracts.set_contract_abi fk) addr t !! other = t !! other.
Proof. intros Hne. by rewrite lookup_alter_ne. Qed.

(** ** The events of a run *)

Lemma linked_new_events self w evs r : new_events w (linked self w evs r).2 = evs.
Proof.
  unfold linked. destruct r.1; [destruct (contracts w !! address self)|];
    apply new_events_after.
Qed.

Lemma unresolved_new_events self w evs :
  new_events w (unresolved self w evs).2 = evs.
Proof. apply new_events_after. Qed.

Lemma created_new_events addr nm w evs r :
  new_events w (created addr nm w evs r).2 = evs.
Proof.
  unfold created.
  destruct r.1; [destruct nm, (contracts w !! addr)|]; apply new_events_after.
Qed.

(** ** The ABI table after a run *)

Lemma linked_abis self w evs r : contract_abis (linked self w evs r).2 = r.2.
Proof.
  unfold linked. by destruct r.1; [destruct (contracts w !! address self)|].
Qed.

Lemma created_abis addr nm w evs r :
  contract_abis (created addr nm w evs r).2 = r.2.
Proof.
  unfold created. by destruct r.1; [destruct nm, (contracts w !! addr)|].
Qed.

Lemma referenced_table {A} (f : A -> positive * ContractAbi) r :
  (referenced f r).2 = r.2.
Proof. unfold referenced. by destruct r.1. Qed.

(** [create_from_address] leaves the ABI table as it is or writes one
    row, and a row it writes holds content that tests true. *)
Lemma create_from_address_abi_table E addr network_id w :
  let t' := contract_abis (create_from_address E addr network_id w).2 in
  t' = contract_abis w
  \/ exists pk row,
       truthy (abi row) = true /\ t' = <[pk := row]> (contract_abis w).
Proof.
  cbn zeta.
  destruct (sourcify E network_id addr) as [[md|]|] eqn:Hs.
  - rewrite (create_from_address_metadata E addr network_id w md Hs).
    rewrite created_abis.
    destruct (truthy (md_abi md)) eqn:Ht; [|by left].
    rewrite referenced_table.
    destruct (update_or_create_described_cases (md_abi md) (md_name md)
                (contract_abis w)) as [(s & _ & ->)|(_ & e & -> & _)];
      [|by left].
    destruct (update_or_create_cases (md_abi md) (Some s) (contract_abis w))
      as [[_ ->]|[(pk & row & Hm & ->)|[_ ->]]]; cbn [snd].
    + case_bool_decide; [by left|].
      right. eexists _, _. split; [|reflexivity]. exact Ht.
    + right. eexists _, _. split; [|reflexivity].
      apply matching_singleton in Hm as [_ Ha].
      by rewrite assign_defaults_abi, Ha.
    + by left.
  - rewrite create_from_address_fallback by done. cbn zeta.
    destruct (etherscan_configured _ _ _); [|by left].
    destruct (etherscan _ _ _) as [a|]; [|by left].
    destruct (truthy a) eqn:Ht; [|by left].
    rewrite created_abis, referenced_table.
    destruct (lookup_then_insert_cases a (contract_abis w))
      as [[_ ->]|[(pk & row & _ & ->)|[_ ->]]]; cbn [snd]; [|by left..].
    case_bool_decide; [by left|].
    right. eexists _, _. split; [|reflexivity]. exact Ht.
  - rewrite create_from_address_unreachable by done. by left.
Qed.
(** ** What a run of [create_from_address] may change *)

Lemma created_shape addr nm w evs r :
  (forall obj, r.1 = Returned (Some obj) ->
               exists row, r.2 !! obj.1 = Some row /\ truthy (abi row) = true) ->
  (forall e, r.1 = Raised e ->
             e = MultipleObjectsReturned \/ e = IntegrityError) ->
  creates_one_contract addr w (created addr nm w evs r).
Proof.
  intros Hobj Hexn. unfold creates_one_contract, created.
  destruct r as [[abi_obj|e] t']; cbn [fst snd] in *.
  - destruct nm as [nm|], (contracts w !! addr) eqn:Hnew; cbn [fst snd];
      auto.
    repeat split; try done.
    intros pk Hpk. destruct abi_obj as [obj|]; [|done].
    injection Hpk as <-. by apply Hobj.
  - split; [done|]. destruct (Hexn e eq_refl) as [-> | ->]; auto.
Qed.

Lemma create_from_address_shape E addr network_id w :
  creates_one_contract addr w (create_from_address E addr network_id w).
Proof.
  destruct (sourcify E network_id addr) as [[md|]|] eqn:Hs.
  - rewrite (create_from_address_metadata E addr network_id w md Hs).
    apply created_shape.
    + destruct (truthy (md_abi md)) eqn:Ht; [|done].
      unfold referenced. intros obj.
      destruct (Abis.update_or_create_described _ _ _)
        as [[[obj' flag]|e] t'] eqn:Hr; [|done].
      cbn [fst snd]. intros [= <-].
      destruct (store_content_stored (md_abi md) (Some (md_name md))
                  _ _ _ _ Hr) as [Hrow Ha].
      exists obj'.2. split; [done|]. by rewrite Ha.
    + destruct (truthy (md_abi md)); [|done].
      unfold referenced. intros e.
      destruct (Abis.update_or_create_described _ _ _)
        as [[[obj' flag]|e'] t'] eqn:Hr; [done|].
      cbn [fst]. intros [= <-].
      by apply update_or_create_described_raises in Hr as [_ ?].
  - rewrite create_from_address_fallback by done. cbn zeta.
    destruct (etherscan_configured _ _ _); [|by cbn].
    destruct (etherscan _ _ _) as [a|];
      [|unfold creates_one_contract; cbn; auto].
    destruct (truthy a) eqn:Ht; [|done].
    apply created_shape; unfold referenced;
      destruct (lookup_then_insert_cases a (contract_abis w))
        as [[_ ->]|[(pk & row & Hm & ->)|[_ ->]]];
      try case_bool_decide; cbn [fst snd]; try done; auto.
    + intros obj [= <-]. eexists. cbn.
      split; [apply lookup_insert_eq|exact Ht].
    + intros obj [= <-]. cbn.
      apply matching_singleton in Hm as [Hrow Ha].
      exists row. split; [exact Hrow|]. by rewrite Ha.
    + intros e [= <-]. auto.
    + intros e [= <-]. auto.
  - rewrite create_from_address_unreachable by done. done.
Qed.

(** ** Table invariants *)

Lemma count_le_size a (t : abi_table) : Abis.count a t <= size t.
Proof.
  unfold Abis.count, Abis.matching.
  apply map_subseteq_size, map_filter_subseteq.
Qed.

Lemma abi_unique_empty : abi_unique ∅.
Proof. intros a. pose proof (count_le_size a ∅) as H. by rewrite map_size_empty in H; lia. Qed.

Lemma abi_unique_singleton pk row : abi_unique {[pk := row]}.
Proof.
  intros a. pose proof (count_le_size a {[pk := row]}) as H.
  by rewrite map_size_singleton in H.
Qed.

Lemma lookup_then_insert_count a (t : abi_table) b :
  Abis.count b (lookup_then_insert a t).2
  = if decide (a = b /\ a <> JNull)
    then Nat.max 1 (Abis.count b t) else Abis.count b t.
Proof.
  destruct (lookup_then_insert_cases a t)
    as [[Hm ->]|[(pk & row & Hm & ->)|[Hc ->]]]; simpl.
  - apply matching_empty_count in Hm. case_bool_decide as Hnull; simpl.
    + rewrite decide_False; [done|]. by intros [_ ?].
    + rewrite count_insert_fresh. simpl.
      destruct (decide (a = b)) as [<-|Hne].
      * rewrite decide_True by done. by rewrite Hm.
      * rewrite decide_False; [done|]. by intros [? _].
  - apply matching_singleton_count in Hm.
    case_decide as Hd; [destruct Hd as [<- _]; by rewrite Hm|done].
  - case_decide as Hd; [destruct Hd as [<- _]; lia|done].
Qed.

Lemma lookup_then_insert_unique a (t : abi_table) :
  abi_unique t -> abi_unique (lookup_then_insert a t).2.
Proof.
  intros Hu b. rewrite lookup_then_insert_count. specialize (Hu b).
  case_decide; lia.
Qed.

(** The managers delete nothing. *)
Lemma update_or_create_dom a d (t : abi_table) :
  dom t ⊆ dom (Abis.update_or_create a d t).2.
Proof.
  destruct (update_or_create_cases a d t)
    as [[_ ->]|[(pk & row & _ & ->)|[_ ->]]];
    try case_bool_decide; simpl; set_solver.
Qed.

Lemma lookup_then_insert_dom a (t : abi_table) :
  dom t ⊆ dom (lookup_then_insert a t).2.
Proof.
  destruct (lookup_then_insert_cases a t)
    as [[_ ->]|[(pk & row & _ & ->)|[_ ->]]];
    try case_bool_decide; simpl; set_solver.
Qed.

(** The one manager call a run makes on the ABI table, if any. *)
Lemma store_content_step a d (t : abi_table) :
  (store_content a d t).2 = t
  \/ exists d', (store_content a d t).2 = (Abis.update_or_create a d' t).2.
Proof.
  destruct (store_content_cases a d t) as [(d' & ->)|(e & -> & _)]; eauto.
Qed.

Lemma sync_abi_from_api_abi_step E self network w :
  let t' := contract_abis (sync_abi_from_api E self network w).2 in
  t' = contract_abis w
  \/ exists a d, t' = (Abis.update_or_create a d (contract_abis w)).2.
Proof.
  cbn zeta. rewrite sync_abi_from_api_answer.
  destruct (providers_answer _ _ _) as [a d evs|evs|evs]; [|by left..].
  rewrite linked_abis.
  destruct (store_content_step a d (contract_abis w)) as [->|[d' ->]]; eauto.
Qed.

Lemma create_from_address_abi_step E addr network_id w :
  let t' := contract_abis (create_from_address E addr network_id w).2 in
  t' = contract_abis w
  \/ (exists a d, t' = (Abis.update_or_create a d (contract_abis w)).2)
  \/ (exists a, t' = (lookup_then_insert a (contract_abis w)).2).
Proof.
  cbn zeta.
  destruct (sourcify E network_id addr) as [[md|]|] eqn:Hs.
  - rewrite (create_from_address_metadata E addr network_id w md Hs).
    rewrite created_abis.
    destruct (truthy (md_abi md)); [|by left].
    rewrite referenced_table.
    change (Abis.update_or_create_described (md_abi md) (md_name md))
      with (store_content (md_abi md) (Some (md_name md))).
    destruct (store_content_step (md_abi md) (Some (md_name md))
                (contract_abis w)) as [->|[d' ->]]; eauto.
  - rewrite create_from_address_fallback by done. cbn zeta.
    destruct (etherscan_configured _ _ _); [|by left].
    destruct (etherscan _ _ _) as [a|]; [|by left].
    destruct (truthy a); [|by left].
    rewrite created_abis, referenced_table. eauto.
  - rewrite create_from_address_unreachable by done. by left.
Qed.

Lemma sync_abi_from_api_abi_dom E self network w :
  dom (contract_abis w)
  ⊆ dom (contract_abis (sync_abi_from_api E self network w).2).
Proof.
  destruct (sync_abi_from_api_abi_step E self network w)
    as [->|(a & d & ->)]; [done|apply update_or_create_dom].
Qed.

Lemma create_from_address_abi_dom E addr network_id w :
  dom (contract_abis w)
  ⊆ dom (contract_abis (create_from_address E addr network_id w).2).
Proof.
  destruct (create_from_address_abi_step E addr network_id w)
    as [->|[(a & d & ->)|(a & ->)]];
    [done|apply update_or_create_dom|apply lookup_then_insert_dom].
Qed.

Lemma is_Some_dom_mono (t t' : abi_table) pk :
  dom t ⊆ dom t' -> is_Some (t !! pk) -> is_Some (t' !! pk).
Proof. rewrite <- !elem_of_dom. set_solver. Qed.
(** ** The duplicate check of [ContractAbi.clean] *)

(** The rows [exclude(pk=self.pk)] keeps. *)
Lemma others_lookup self_pk (t : abi_table) pk row :
  match self_pk with Some k => delete k t | None => t end !! pk = Some row
  <-> t !! pk = Some row /\ self_pk <> Some pk.
Proof.
  destruct self_pk as [k|].
  - rewrite lookup_delete_Some. split.
    + intros [Hne Hpk]. split; [done|]. congruence.
    + intros [Hpk Hne]. split; [|done]. congruence.
  - split; [by intros Hpk|by intros [Hpk _]].
Qed.

(** No other record holds the content: every record that holds it is
    the object itself. *)
Lemma others_empty_iff self_pk a (t : abi_table) :
  Abis.matching a match self_pk with Some k => delete k t | None => t end = ∅
  <-> forall pk row, t !! pk = Some row -> abi row = a -> self_pk = Some pk.
Proof.
  split.
  - intros Hm pk row Hpk Ha.
    destruct (decide (self_pk = Some pk)) as [|Hne]; [done|].
    assert (Hin : Abis.matching a
                    match self_pk with Some k => delete k t | None => t end
                  !! pk = Some row).
    { apply matching_lookup. split; [|done]. by apply others_lookup. }
    by rewrite Hm in Hin.
  - intros Hall. apply map_empty. intros pk.
    destruct (Abis.matching a _ !! pk) as [row|] eqn:Hin; [|done].
    apply matching_lookup in Hin as [[Hpk Hne]%others_lookup Ha].
    destruct Hne. by eapply Hall.
Qed.

(** The three ways [clean] ends. *)
Lemma clean_cases self_pk a (t : abi_table) :
  let others := match self_pk with Some k => delete k t | None => t end in
  (Abis.matching a others = ∅
   /\ Abis.clean self_pk a t = (Returned None, t))
  \/ (exists pk row,
        Abis.matching a others = {[pk := row]}
        /\ Abis.clean self_pk a t
           = (Returned (Some (pk, description row)), t))
  \/ (2 <= Abis.count a others
      /\ Abis.clean self_pk a t = (Raised MultipleObjectsReturned, t)).
Proof.
  intros others. unfold Abis.clean, Abis.count. fold others.
  destruct (map_to_list (Abis.matching a others)) as [|[pk row] [|obj' l]] eqn:Hl.
  - left. by apply map_to_list_empty_iff in Hl.
  - right. left. exists pk, row. split; [|done].
    rewrite <- (list_to_map_to_list (Abis.matching a others)), Hl. done.
  - right. right. split; [|done].
    rewrite <- length_map_to_list, Hl. simpl. lia.
Qed.

Lemma keyed_singleton (c : Contract) :
  keyed_by_address ({[address c := c]} : contract_table).
Proof. by intros k c' [<- <-]%lookup_singleton_Some. Qed.

Lemma linked_world_references : references_stored Examples.linked_world.
Proof.
  unfold references_stored, Examples.linked_world. cbn.
  intros k c pk [<- <-]%lookup_singleton_Some [= <-].
  rewrite lookup_singleton_eq. by eexists.
Qed.
(** ** Strings and [splitext] *)

Lemma append_nil t : "" +:+ t = t.
Proof. reflexivity. Qed.

Lemma append_cons c s t : String c s +:+ t = String c (s +:+ t).
Proof. reflexivity. Qed.


Lemma substring_all p : String.substring 0 (String.length p) p = p.
Proof. induction p as [|c p IH]; cbn; [done|by rewrite IH]. Qed.

(** Cutting a string at any index loses nothing. *)
Lemma substring_cut p k :
  String.substring 0 k p +:+ String.substring k (String.length p - k) p = p.
Proof.
  revert k. induction p as [|c p IH]; intros [|k].
  - done.
  - done.
  - rewrite Nat.sub_0_r. change (String.substring 0 0 (String c p)) with "".
    rewrite append_nil. apply substring_all.
  - cbn [String.substring String.length Nat.sub].
    rewrite append_cons. f_equal. apply IH.
Qed.





(** ** The loop of [fix_missing_logos] *)

(** One round, for a contract that is stored. *)
Lemma fix_missing_logo_step E c n w :
  is_Some (contracts w !! address c) ->
  fix_missing_logo E c n w
  = match logo_escapes E c with
    | Some e =>
        (Raised e,
         after w (contract_abis w) (contracts w) (logo_events E c))
    | None =>
        (Returned (if logo_found E c then S n else n),
         after w (contract_abis w)
               (if logo_found E c
                then alter (Contracts.set_logo (logo_file c)) (address c)
                           (contracts w)
                else contracts w)
               (logo_events E c))
    end.
Proof.
  intros [stored Hs].
  unfold fix_missing_logo, logo_size, logo_found, logo_escapes, logo_events,
    after.
  fold (logo_file c).
  cbv [bind try_except ret raise call on_contracts Contracts.save_logo].
  cbn [fst snd contract_abis contracts trace address logo Contracts.set_logo].
  destruct (storage_size E (get_file_storage E) (logo_file c)) as [sz|e];
    cbn [fst snd contract_abis contracts trace].
  - destruct (sz =? 0)%N; cbn [negb]; [done|].
    cbn [fst snd contract_abis contracts trace address logo Contracts.set_logo].
    rewrite Hs. cbn [fst snd contract_abis contracts trace].
    by rewrite <- app_assoc.
  - destruct e; cbn [handled fst snd contract_abis contracts trace];
      first [done | by rewrite <- app_assoc].
Qed.


Lemma visited_all E todo : escaping E todo = None -> visited E todo = todo.
Proof.
  induction todo as [|c todo IH]; cbn; [done|].
  destruct (logo_escapes E c); [done|]. intros H. by rewrite IH.
Qed.

Lemma logo_events_quiet E c :
  Forall (fun e => is_explorer_call e = false) (logo_events E c).
Proof.
  unfold logo_events.
  destruct (storage_size _ _ _) as [sz|e];
    [destruct (negb _)|destruct (handled e)]; repeat constructor.
Qed.

(** All rounds, for contracts that are stored: the loop ends with the
    count, or with the first exception that is not handled, after the
    rounds before it. *)
Lemma fix_each_run E todo n w :
  Forall (fun c => is_Some (contracts w !! address c)) todo ->
  exists evs,
    fix_each E todo n w
    = (match escaping E todo with
       | Some e => Raised e
       | None =>
           Returned (n + length (filter (fun c => logo_found E c = true) todo))
       end,
       after w (contract_abis w)
             (logos_fixed E (visited E todo) (contracts w)) evs)
    /\ Forall (fun e => is_explorer_call e = false) evs.
Proof.
  revert n w. induction todo as [|c todo IH]; intros n w Hall.
  - exists []. cbn. unfold after, ret. rewrite app_nil_r, Nat.add_0_r.
    by destruct w.
  - apply Forall_cons in Hall as [Hc Hall].
    cbn [fix_each escaping visited]. unfold bind.
    rewrite (fix_missing_logo_step E c n w Hc).
    destruct (logo_escapes E c) as [e|] eqn:Hesc.
    { exists (logo_events E c). split; [done|apply logo_events_quiet]. }
    set (w1 := after w _ _ _).
    destruct (IH (if logo_found E c then S n else n) w1) as (evs & -> & Hevs).
    { subst w1. cbn [contracts after].
      eapply Forall_impl; [exact Hall|]. intros c' Hc'. cbn beta in *.
      destruct (logo_found E c); [|done].
      apply elem_of_dom. rewrite dom_alter_L. by apply elem_of_dom. }
    exists (logo_events E c ++ evs). split.
    + subst w1. unfold after. cbn [contract_abis contracts trace logos_fixed foldl].
      rewrite filter_cons. rewrite app_assoc.
      destruct (logo_found E c) eqn:Hf.
      * rewrite decide_True by done. cbn [length].
        destruct (escaping E todo); [done|]. f_equal. f_equal. lia.
      * rewrite decide_False by done. done.
    + apply Forall_app. split; [apply logo_events_quiet|done].
Qed.

Lemma logo_file_path c : logo_file c = logo_path (address c).
Proof. reflexivity. Qed.

Lemma logo_found_at E c : logo_found E c = found_at E (address c).
Proof. reflexivity. Qed.

(** A row of the table after the rounds: its logo is set when one of the
    contracts visited has its address and a file. *)
Lemma logos_fixed_lookup E todo (t : contract_table) k :
  logos_fixed E todo t !! k
  = if bool_decide (found_at E k = true /\ k ∈ address <$> todo)
    then Contracts.set_logo (logo_path k) <$> t !! k
    else t !! k.
Proof.
  revert t. induction todo as [|c todo IH]; intros t.
  - cbn. rewrite bool_decide_eq_false_2; [done|].
    intros [_ Hin]. by apply elem_of_nil in Hin.
  - change (logos_fixed E (c :: todo) t)
      with (logos_fixed E todo
              (if logo_found E c
               then alter (Contracts.set_logo (logo_file c)) (address c) t
               else t)).
    rewrite IH, logo_found_at, logo_file_path. rewrite fmap_cons.
    destruct (decide (address c = k)) as [<-|Hne].
    + destruct (found_at E (address c)) eqn:Hf.
      * rewrite lookup_alter_eq.
        rewrite (bool_decide_eq_true_2 (_ /\ address c ∈ address c :: _));
          [|split; [done|left]].
        case_bool_decide; [|done].
        destruct (t !! address c); [|done]. done.
      * rewrite !bool_decide_eq_false_2; [done|by intros [? _]..].
    + assert (Hk : (if found_at E (address c)
                    then alter (Contracts.set_logo (logo_path (address c)))
                               (address c) t
                    else t) !! k = t !! k).
      { destruct (found_at E (address c)); [|done]. by rewrite lookup_alter_ne. }
      rewrite Hk. apply (f_equal (fun b : bool => if b then _ else _)).
      apply bool_decide_ext. rewrite elem_of_cons.
      split; [intros [? ?]; auto|intros [? [?|?]]; [congruence|auto]].
Qed.

(** The contracts [fix_missing_logos] visits. *)
Lemma without_logo_rows (t : contract_table) c :
  keyed_by_address t ->
  c ∈ (map_to_list (Contracts.without_logo t)).*2
  <-> t !! address c = Some c /\ logo c = "".
Proof.
  intros Hkey. rewrite list_elem_of_fmap. split.
  - intros ([k c'] & -> & Hin). cbn.
    apply elem_of_map_to_list, map_lookup_filter_Some in Hin as [Hk Hno].
    cbn in Hno. apply bool_decide_eq_true in Hno.
    by rewrite (Hkey k c' Hk).
  - intros [Hc Hno]. exists (address c, c). split; [done|].
    apply elem_of_map_to_list, map_lookup_filter_Some. split; [done|].
    cbn. by apply bool_decide_eq_true.
Qed.

(** Counting the rows of a table by a property of the row. *)
Lemma size_filter_values {A} (P : A -> Prop)
    {H1 : forall x, Decision (P x)}
    {H2 : forall kv : string * A, Decision (P kv.2)}
    (m : gmap string A) :
  size (filter (fun kv => P kv.2) m) = length (filter P (map_to_list m).*2).
Proof.
  induction m as [|i x m Hi IH] using map_ind.
  - by rewrite map_filter_empty, map_to_list_empty.
  - rewrite map_to_list_insert by done. rewrite fmap_cons, filter_cons. cbn [snd].
    destruct (decide (P x)) as [Hx|Hx].
    + rewrite map_filter_insert_True by done.
      rewrite map_size_insert_None; [cbn; by rewrite IH|].
      apply map_lookup_filter_None. by left.
    + rewrite map_filter_insert_False by done.
      by rewrite delete_id.
Qed.

Lemma logo_path_nonempty k : logo_path k <> "".
Proof.
  unfold logo_path, logo_file, get_contract_logo_path.
  by rewrite append_cons.
Qed.

(** The rows sit under their addresses after the rounds as well. *)
Lemma logos_fixed_keyed E todo (t : contract_table) :
  keyed_by_address t -> keyed_by_address (logos_fixed E todo t).
Proof.
  intros Hkey k c. rewrite logos_fixed_lookup.
  case_bool_decide; [|by apply Hkey].
  destruct (t !! k) as [c0|] eqn:Hk; [|done].
  intros [= <-]. cbn. by apply Hkey.
Qed.

(** Rounds for contracts without a file change nothing. *)
Lemma logos_fixed_none E todo (t : contract_table) :
  Forall (fun c => logo_found E c = false) todo ->
  logos_fixed E todo t = t
  /\ filter (fun c => logo_found E c = true) todo = [].
Proof.
  revert t. induction todo as [|c todo IH]; intros t; [done|].
  intros [Hc Hall]%Forall_cons.
  change (logos_fixed E (c :: todo) t)
    with (logos_fixed E todo
            (if logo_found E c
             then alter (Contracts.set_logo (logo_file c)) (address c) t
             else t)).
  rewrite filter_cons, Hc. rewrite decide_False by done.
  by apply IH.
Qed.


(** No exception leaves the loop exactly when none leaves a round. *)
Lemma escaping_None E todo :
  escaping E todo = None <-> Forall (fun c => logo_escapes E c = None) todo.
Proof.
  induction todo as [|c todo IH]; cbn; [by split|].
  rewrite Forall_cons. destruct (logo_escapes E c) as [e|].
  - split; [done|]. by intros [? _].
  - rewrite IH. split; [by split|by intros [_ ?]].
Qed.


(** A run of [fix_missing_logos] that returns has gone through all the
    rounds. *)
Lemma fix_missing_logos_returned E w n w' :
  keyed_by_address (contracts w) ->
  fix_missing_logos E w = (Returned n, w') ->
  let todo := (map_to_list (Contracts.without_logo (contracts w))).*2 in
  escaping E todo = None
  /\ n = length (filter (fun c => logo_found E c = true) todo)
  /\ exists evs,
       w' = after w (contract_abis w) (logos_fixed E todo (contracts w)) evs.
Proof.
  intros Hkey H todo. unfold fix_missing_logos in H.
  destruct (fix_each_run E todo 0 w) as (evs & Hrun & _).
  { apply Forall_forall. intros c Hc.
    apply (without_logo_rows _ _ Hkey) in Hc as [-> _]. by eexists. }
  fold todo in H. rewrite Hrun in H.
  destruct (escaping E todo) eqn:Hesc; [done|].
  injection H as <- <-. rewrite (visited_all E todo Hesc). eauto.
Qed.
(** * The claims *)




(** C2.  When the canonical provider returns metadata that has a name
    and whose ABI is absent ([None], or any other false value), for an
    address that is not stored yet, [create_from_address] returns a new
    record carrying the metadata's name and no ABI reference, stores it
    under the address, leaves the ABI table alone, and its only external
    call is the one to the canonical provider: the explorer is not
    invoked. *)
Theorem create_from_address_metadata_without_abi E addr network_id w md nm :
  sourcify E network_id addr = Fetched (Some md) ->
  md_name md = Some nm ->
  truthy (md_abi md) = false ->
  contracts w !! addr = None ->
  exists c w',
    create_from_address E addr network_id w = (Returned (Some c), w')
    /\ address c = addr /\ name c = nm /\ contract_abi c = None
    /\ contracts w' = <[addr := c]> (contracts w)
    /\ contract_abis w' = contract_abis w
    /\ new_events w w' = [SourcifyGetContractMetadata network_id addr]
    /\ Forall (fun e => is_explorer_call e = false) (new_events w w').
Proof.
  intros Hmd Hname Habi Hnew.
  rewrite (create_from_address_metadata E addr network_id w md Hmd), Habi.
  unfold created. cbn [fst snd]. rewrite Hname, Hnew.
  eexists _, _. split; [reflexivity|].
  rewrite new_events_after. repeat split; repeat constructor.
Qed.

Lemma create_from_address_metadata_without_abi_witness :
  exists c w',
    create_from_address Examples.name_only Examples.token 1
      Examples.empty_world = (Returned (Some c), w')
    /\ address c = Examples.token /\ name c = "Bar" /\ contract_abi c = None
    /\ contracts w' = <[Examples.token := c]> (contracts Examples.empty_world)
    /\ contract_abis w' = contract_abis Examples.empty_world
    /\ new_events Examples.empty_world w'
       = [SourcifyGetContractMetadata 1 Examples.token]
    /\ Forall (fun e => is_explorer_call e = false)
              (new_events Examples.empty_world w').
Proof.
  apply (create_from_address_metadata_without_abi Examples.name_only
           Examples.token 1 Examples.empty_world
           (mkContractMetadata (Some "Bar") JNull) "Bar");
    reflexivity.
Defined.

(** C3, where the code departs from it.  Two provider failures leave the
    resolver as exceptions: in [create_from_address] the explorer's
    transport error (only the configuration error is handled there), and
    in [sync_abi_from_api] the explorer's configuration error (the client
    is set up outside the [try], which handles transport errors only). *)
Theorem provider_failures_leave_the_resolver E :
  (forall addr network_id w,
      sourcify E network_id addr = Fetched None ->
      etherscan_configured E network_id (ETHERSCAN_API_KEY E) = true ->
      etherscan E network_id addr = TransportError ->
      (create_from_address E addr network_id w).1 = Raised IOError)
  /\ (forall self network w,
        sourcify E (default (node_network E) network) (address self)
          = Fetched None
        \/ sourcify E (default (node_network E) network) (address self)
          = TransportError ->
        etherscan_configured E (default (node_network E) network) None
          = false ->
        (sync_abi_from_api E self network w).1
        = Raised EtherscanClientConfigurationError).
Proof.
  split.
  - intros addr network_id w Hs Hc He.
    rewrite create_from_address_fallback by done. cbn zeta.
    by rewrite Hc, He.
  - intros self network w Hs Hc.
    rewrite sync_abi_from_api_fallback by done.
    by rewrite Hc.
Qed.

Lemma provider_failures_leave_the_resolver_witness :
  (create_from_address Examples.explorer_down Examples.token 1
     Examples.empty_world).1 = Raised IOError
  /\ (sync_abi_from_api Examples.explorer_down Examples.stored_token None
        Examples.token_world).1 = Raised EtherscanClientConfigurationError.
Proof.
  destruct (provider_failures_leave_the_resolver Examples.explorer_down)
    as [Hcreate Hsync].
  split.
  - apply Hcreate; reflexivity.
  - apply Hsync; [left|]; reflexivity.
Defined.

(** C4, where the code departs from it.  When the canonical provider
    knows nothing and the explorer, set up without error, cannot be
    reached, [create_from_address] does not return: the transport error
    leaves the method.  Both tables are as before. *)
Theorem create_from_address_explorer_unreachable E addr network_id w :
  sourcify E network_id addr = Fetched None ->
  etherscan_configured E network_id (ETHERSCAN_API_KEY E) = true ->
  etherscan E network_id addr = TransportError ->
  exists w',
    create_from_address E addr network_id w = (Raised IOError, w')
    /\ contracts w' = contracts w
    /\ contract_abis w' = contract_abis w
    /\ new_events w w'
       = [SourcifyGetContractMetadata network_id addr;
          EtherscanClientInit network_id (ETHERSCAN_API_KEY E);
          EtherscanGetContractAbi network_id addr].
Proof.
  intros Hs Hc He.
  rewrite create_from_address_fallback by done. cbn zeta.
  rewrite Hc, He. eexists. split; [reflexivity|].
  rewrite new_events_after. done.
Qed.

Lemma create_from_address_explorer_unreachable_witness :
  exists w',
    create_from_address Examples.explorer_down Examples.token 1
      Examples.empty_world = (Raised IOError, w')
    /\ contracts w' = contracts Examples.empty_world
    /\ contract_abis w' = contract_abis Examples.empty_world
    /\ new_events Examples.empty_world w'
       = [SourcifyGetContractMetadata 1 Examples.token;
          EtherscanClientInit 1 (ETHERSCAN_API_KEY Examples.explorer_down);
          EtherscanGetContractAbi 1 Examples.token].
Proof.
  apply (create_from_address_explorer_unreachable Examples.explorer_down
           Examples.token 1 Examples.empty_world); reflexivity.
Defined.
(** C5, where the code departs from it.  [validate_abi] does reject
    every value that tests false, with the reason "Empty ABI not
    allowed", and every value on which the normalization raises
    [ValueError], with the reason of that error.  But an exception of
    another class that the normalization raises leaves [validate_abi] as
    it is: only [ValueError] is handled.  And of the write paths,
    [create_from_address] stores no content that tests false, while
    [sync_abi_from_api] stores whatever the canonical provider's metadata
    holds: content that tests false and is not [None], not stored yet,
    gets a record of its own, and the contract is linked to it. *)
Theorem empty_or_malformed_abi_slips_through :
  (forall normalize_abi v,
      truthy v = false ->
      validate_abi normalize_abi v
      = ValidationError v "Empty ABI not allowed")
  /\ (forall normalize_abi v reason,
         truthy v = true -> normalize_abi v = ValueError reason ->
         validate_abi normalize_abi v = ValidationError v reason)
  /\ (forall normalize_abi v e,
         truthy v = true -> normalize_abi v = OtherError e ->
         validate_abi normalize_abi v = Escapes e)
  /\ (forall E addr network_id w pk row,
         contract_abis (create_from_address E addr network_id w).2 !! pk
           = Some row ->
         truthy (abi row) = false ->
         contract_abis w !! pk = Some row)
  /\ (forall E self network w md nm stored,
         sourcify E (default (node_network E) network) (address self)
           = Fetched (Some md) ->
         md_name md = Some nm ->
         truthy (md_abi md) = false -> md_abi md <> JNull ->
         Abis.count (md_abi md) (contract_abis w) = 0 ->
         contracts w !! address self = Some stored ->
         exists pk w',
           sync_abi_from_api E self network w
           = (Returned (mkContract (address self) (name self)
                                   (display_name self) (logo self) (Some pk),
                        true), w')
           /\ contract_abis w !! pk = None
           /\ contract_abis w' !! pk = Some (mkContractAbi (md_abi md) nm 100)
           /\ contracts w' !! address self
              = Some (mkContract (address stored) (name stored)
                                 (display_name stored) (logo stored) (Some pk))).
Proof.
  unfold validate_abi. repeat split.
  - intros normalize_abi v ->. done.
  - intros normalize_abi v reason -> ->. done.
  - intros normalize_abi v e -> ->. done.
  - intros E addr network_id w pk row Hrow Hfalse.
    destruct (create_from_address_abi_table E addr network_id w)
      as [Heq|(pk' & row' & Htrue & Heq)]; rewrite Heq in Hrow; [done|].
    apply lookup_insert_Some in Hrow as [[_ <-]|[_ Hrow]]; [|done].
    congruence.
  - intros E self network w md nm stored Hs Hname Hfalse Hnull Hnone Hstored.
    rewrite (sync_abi_from_api_metadata E self network w md Hs), Hname.
    unfold linked, Abis.update_or_create_described.
    apply matching_empty_count in Hnone.
    destruct (update_or_create_cases (md_abi md) (Some nm) (contract_abis w))
      as [[_ ->]|[(pk & row & Hm & _)|[Hc _]]].
    + rewrite bool_decide_eq_false_2 by done. cbn [fst snd].
      rewrite Hstored. eexists _, _. split; [reflexivity|].
      cbn [contract_abis contracts after].
      split; [apply not_elem_of_dom, is_fresh|].
      split; [apply lookup_insert_eq|].
      by apply set_contract_abi_row.
    + rewrite Hnone in Hm. symmetry in Hm.
      by apply map_non_empty_singleton in Hm.
    + apply matching_empty_count in Hnone. lia.
Qed.

Lemma empty_or_malformed_abi_slips_through_witness :
  validate_abi Examples.first_checks (JArr [JObj []]) = Escapes KeyError
  /\ exists pk w',
       sync_abi_from_api Examples.empty_list_abi Examples.stored_token
         (Some 1%N) Examples.token_world
       = (Returned (mkContract Examples.token "Dai" "" "" (Some pk), true), w')
       /\ contract_abis Examples.token_world !! pk = None
       /\ contract_abis w' !! pk = Some (mkContractAbi (JArr []) "Bar" 100)
       /\ contracts w' !! Examples.token
          = Some (mkContract Examples.token "Dai" "" "" (Some pk)).
Proof.
  destruct empty_or_malformed_abi_slips_through
    as (_ & _ & Hescapes & _ & Hsync).
  split.
  - apply Hescapes; reflexivity.
  - apply (Hsync Examples.empty_list_abi Examples.stored_token (Some 1%N)
             Examples.token_world (mkContractMetadata (Some "Bar") (JArr []))
             "Bar" Examples.stored_token);
      [reflexivity|reflexivity|reflexivity|discriminate
      |vm_compute; reflexivity|reflexivity].
Defined.

(** C6 (as the code has it).  When exactly one record holds the content,
    [update_or_create] returns that record with the flag [False] and
    inserts nothing: the keys of the table and the number of records of
    every content are as before, and every other row is untouched.  The
    record's content and relevance do not change; its description
    becomes the one supplied, whatever it was, and stays when none is
    supplied. *)
Theorem update_or_create_existing a d (t : abi_table) pk row :
  t !! pk = Some row -> abi row = a -> Abis.count a t = 1 ->
  exists row' t',
    Abis.update_or_create a d t = (Returned ((pk, row'), false), t')
    /\ t' !! pk = Some row'
    /\ abi row' = abi row
    /\ relevance row' = relevance row
    /\ description row' = default (description row) d
    /\ (forall other, other <> pk -> t' !! other = t !! other)
    /\ dom t' = dom t
    /\ (forall b, Abis.count b t' = Abis.count b t).
Proof.
  intros Hpk Ha Hc.
  rewrite (update_or_create_found a d t pk row Hpk Ha Hc).
  eexists _, _. split; [reflexivity|].
  split; [apply lookup_insert_eq|].
  split; [apply assign_defaults_abi|].
  split; [apply assign_defaults_relevance|].
  split; [by destruct d|].
  split; [intros other Hne; by rewrite lookup_insert_ne|].
  split; [by apply found_keeps_table_shape|].
  intros b. by apply found_keeps_table_shape.
Qed.

Lemma update_or_create_existing_witness :
  exists row' t',
    Abis.update_or_create Examples.erc20 None
      (contract_abis Examples.linked_world)
    = (Returned ((1%positive, row'), false), t')
    /\ t' !! 1%positive = Some row'
    /\ abi row' = Examples.erc20
    /\ relevance row' = 100%Z
    /\ description row' = "Dai"
    /\ (forall other, other <> 1%positive ->
                      t' !! other = contract_abis Examples.linked_world !! other)
    /\ dom t' = dom (contract_abis Examples.linked_world)
    /\ (forall b, Abis.count b t'
                  = Abis.count b (contract_abis Examples.linked_world)).
Proof.
  apply (update_or_create_existing Examples.erc20 None
           (contract_abis Examples.linked_world) 1%positive
           (mkContractAbi Examples.erc20 "Dai" 100));
    [reflexivity|reflexivity|vm_compute; reflexivity].
Defined.

(** C6, the case that fails: a supplied description replaces one that is
    not empty. *)
Lemma update_or_create_replaces_description :
  description (mkContractAbi Examples.erc20 "Dai" 100) = "Dai"
  /\ Abis.update_or_create Examples.erc20 (Some "Token")
       {[1%positive := mkContractAbi Examples.erc20 "Dai" 100]}
     = (Returned ((1%positive, mkContractAbi Examples.erc20 "Token" 100),
                  false),
        {[1%positive := mkContractAbi Examples.erc20 "Token" 100]}).
Proof. split; [reflexivity|]. vm_compute. reflexivity. Qed.
(** C7.  A contract references an ABI record whose content is stored
    exactly once.  When [sync_abi_from_api] is run and the provider that
    answers (the canonical one, or the explorer when the canonical one
    knows nothing or cannot be reached) returns that same content, no
    record is added: the content is still stored exactly once, the keys
    of the ABI table are the same, and so is the number of records of
    every content. *)
Theorem sync_abi_from_api_same_content E self network w pk row :
  let n := default (node_network E) network in
  contract_abi self = Some pk ->
  contract_abis w !! pk = Some row ->
  Abis.count (abi row) (contract_abis w) = 1 ->
  (exists md, sourcify E n (address self) = Fetched (Some md)
              /\ md_abi md = abi row)
  \/ ((sourcify E n (address self) = Fetched None
       \/ sourcify E n (address self) = TransportError)
      /\ etherscan_configured E n None = true
      /\ etherscan E n (address self) = Fetched (abi row)) ->
  let w' := (sync_abi_from_api E self network w).2 in
  Abis.count (abi row) (contract_abis w') = 1
  /\ dom (contract_abis w') = dom (contract_abis w)
  /\ (forall b, Abis.count b (contract_abis w')
                = Abis.count b (contract_abis w)).
Proof.
  intros n _ Hrow Hone Hsame w'.
  assert (Hshape : dom (contract_abis w') = dom (contract_abis w)
                   /\ forall b, Abis.count b (contract_abis w')
                                = Abis.count b (contract_abis w)).
  { subst w'. destruct Hsame as [(md & Hs & Hmd)|(Hs & Hc & He)].
    - rewrite (sync_abi_from_api_metadata E self network w md Hs).
      rewrite linked_abis, Hmd.
      destruct (update_or_create_described_cases (abi row) (md_name md)
                  (contract_abis w)) as [(s & _ & ->)|(_ & e & -> & _)];
        [|done].
      rewrite (update_or_create_found _ _ _ pk row Hrow eq_refl Hone).
      cbn [snd].
      split; [exact (proj2 (found_keeps_table_shape JNull _ _ _ _ Hrow))
             |intros b; exact (proj1 (found_keeps_table_shape b _ _ _ _ Hrow))].
    - rewrite sync_abi_from_api_fallback by exact Hs. fold n.
      rewrite Hc, He.
      destruct (truthy (abi row)); [|done].
      rewrite linked_abis.
      rewrite (update_or_create_found _ _ _ pk row Hrow eq_refl Hone).
      cbn [snd].
      split; [exact (proj2 (found_keeps_table_shape JNull _ _ _ _ Hrow))
             |intros b; exact (proj1 (found_keeps_table_shape b _ _ _ _ Hrow))]. }
  destruct Hshape as [Hdom Hcount]. by rewrite Hcount.
Qed.

Lemma sync_abi_from_api_same_content_witness :
  Abis.count Examples.erc20
    (contract_abis
       (sync_abi_from_api Examples.verified Examples.linked_token (Some 1%N)
          Examples.linked_world).2) = 1
  /\ dom (contract_abis
            (sync_abi_from_api Examples.verified Examples.linked_token
               (Some 1%N) Examples.linked_world).2)
     = dom (contract_abis Examples.linked_world)
  /\ (forall b,
         Abis.count b
           (contract_abis
              (sync_abi_from_api Examples.verified Examples.linked_token
                 (Some 1%N) Examples.linked_world).2)
         = Abis.count b (contract_abis Examples.linked_world)).
Proof.
  apply (sync_abi_from_api_same_content Examples.verified
           Examples.linked_token (Some 1%N) Examples.linked_world 1%positive
           (mkContractAbi Examples.erc20 "Dai" 100)).
  - reflexivity.
  - reflexivity.
  - vm_compute. reflexivity.
  - left. eexists. split; reflexivity.
Defined.

(** C8, where the code departs from it.  What [sync_abi_from_api] does
    follows from what the providers answer.

    - However it ends, it has one of these shapes.  It returns [True]:
      the contract is stored, the object and the stored row now reference
      a stored ABI record, every other column of that row (address, name,
      display name, logo) and every other row are as they were.  It
      returns [False]: the object and both tables are as they were.  Or
      an exception leaves the method, and the contract table is as it
      was.
    - It returns [False] exactly when the canonical provider has no
      metadata (it knows none or cannot be reached) and the explorer, set
      up without error, has no content or cannot be reached.
    - When the canonical provider has no metadata and the explorer cannot
      be set up, nothing has been resolved, yet the method does not
      return [False]: the configuration error leaves it.
    - When a provider supplies content that is not [None] (the canonical
      one, with a name, or else the explorer, with content that tests
      true), the content is stored at most once and the contract is
      stored, it returns [True] and the reference goes to a record
      holding that content. *)
Theorem sync_abi_from_api_outcomes E self network w :
  let n := default (node_network E) network in
  let addr := address self in
  let no_metadata :=
    sourcify E n addr = Fetched None \/ sourcify E n addr = TransportError in
  match sync_abi_from_api E self network w with
  | (Returned (self', true), w') =>
      exists pk stored,
        contracts w !! addr = Some stored
        /\ is_Some (contract_abis w' !! pk)
        /\ self' = mkContract (address self) (name self) (display_name self)
                              (logo self) (Some pk)
        /\ contracts w' !! addr
           = Some (mkContract (address stored) (name stored)
                              (display_name stored) (logo stored) (Some pk))
        /\ (forall other, other <> addr ->
                          contracts w' !! other = contracts w !! other)
  | (Returned (self', false), w') =>
      self' = self
      /\ contracts w' = contracts w
      /\ contract_abis w' = contract_abis w
  | (Raised e, w') =>
      contracts w' = contracts w
      /\ (e = EtherscanClientConfigurationError
          \/ e = MultipleObjectsReturned
          \/ e = IntegrityError
          \/ e = DatabaseError)
  end
  /\ ((exists self' w',
         sync_abi_from_api E self network w = (Returned (self', false), w'))
      <-> no_metadata
          /\ etherscan_configured E n None = true
          /\ (etherscan E n addr = TransportError
              \/ exists a, etherscan E n addr = Fetched a
                           /\ truthy a = false))
  /\ (no_metadata -> etherscan_configured E n None = false ->
      exists w',
        sync_abi_from_api E self network w
        = (Raised EtherscanClientConfigurationError, w')
        /\ contracts w' = contracts w
        /\ contract_abis w' = contract_abis w)
  /\ (forall a stored,
         (exists md nm, sourcify E n addr = Fetched (Some md)
                        /\ md_abi md = a /\ md_name md = Some nm
                        /\ a <> JNull)
         \/ (no_metadata
             /\ etherscan_configured E n None = true
             /\ etherscan E n addr = Fetched a /\ truthy a = true) ->
         Abis.count a (contract_abis w) <= 1 ->
         contracts w !! addr = Some stored ->
         exists pk row w',
           sync_abi_from_api E self network w
           = (Returned (mkContract (address self) (name self)
                                   (display_name self) (logo self) (Some pk),
                        true), w')
           /\ contract_abis w' !! pk = Some row /\ abi row = a
           /\ contracts w' !! addr
              = Some (mkContract (address stored) (name stored)
                                 (display_name stored) (logo stored)
                                 (Some pk))).
Proof.
  intros n addr no_metadata. split; [|split; [|split]].
  - pose proof (sync_abi_from_api_writes E self network w) as H.
    unfold writes_only_contract_abi in H.
    destruct (sync_abi_from_api E self network w) as [[[self' [|]]|e] w'];
      cbn [fst snd] in H; [|exact H..].
    destruct H as (pk & Hpk & [stored Hstored] & -> & ->).
    exists pk, stored. split; [done|]. split; [done|]. split; [done|].
    split.
    + by apply set_contract_abi_row.
    + intros other Hne. by apply set_contract_abi_others.
  - assert (Hlinked : forall evs r self' w',
               linked self w evs r <> (Returned (self', false), w')).
    { intros evs r self' w'. unfold linked.
      by destruct r.1; [destruct (contracts w !! address self)|]. }
    subst no_metadata.
    destruct (sourcify E n addr) as [[md|]|] eqn:Hs.
    + rewrite (sync_abi_from_api_metadata _ _ _ _ md Hs). split.
      * intros (self' & w' & H). by apply Hlinked in H.
      * by intros [[?|?] _].
    + rewrite sync_abi_from_api_fallback by auto. cbn zeta. fold n addr.
      destruct (etherscan_configured E n None);
        [|split; [by intros (? & ? & ?)|by intros (_ & ? & _)]].
      destruct (etherscan E n addr) as [a|];
        [destruct (truthy a) eqn:Ht|].
      * split; [intros (self' & w' & H); by apply Hlinked in H|].
        intros (_ & _ & [?|(a' & [= <-] & ?)]); congruence.
      * split; [|by eexists _, _]. intros _. eauto 10.
      * split; [|by eexists _, _]. intros _. eauto 10.
    + rewrite sync_abi_from_api_fallback by auto. cbn zeta. fold n addr.
      destruct (etherscan_configured E n None);
        [|split; [by intros (? & ? & ?)|by intros (_ & ? & _)]].
      destruct (etherscan E n addr) as [a|];
        [destruct (truthy a) eqn:Ht|].
      * split; [intros (self' & w' & H); by apply Hlinked in H|].
        intros (_ & _ & [?|(a' & [= <-] & ?)]); congruence.
      * split; [|by eexists _, _]. intros _. eauto 10.
      * split; [|by eexists _, _]. intros _. eauto 10.
  - intros Hs Hc. rewrite sync_abi_from_api_fallback by exact Hs.
    cbn zeta. fold n addr. rewrite Hc. by eexists.
  - intros a stored Hsupply Hle Hstored.
    assert (Hstore : exists d' evs,
               sync_abi_from_api E self network w
               = linked self w evs
                   (Abis.update_or_create a d' (contract_abis w))
               /\ a <> JNull).
    { destruct Hsupply as [(md & nm & Hs & <- & Hname & Hnull)
                          |(Hs & Hc & He & Ht)].
      - rewrite (sync_abi_from_api_metadata _ _ _ _ md Hs), Hname.
        by eexists (Some nm), _.
      - rewrite sync_abi_from_api_fallback by exact Hs. cbn zeta.
        fold n addr. rewrite Hc, He, Ht. eexists None, _. split; [done|].
        by intros ->. }
    destruct Hstore as (d' & evs & -> & Hnull). unfold linked.
    destruct (update_or_create_cases a d' (contract_abis w))
      as [[_ ->]|[(pk & row & Hm & ->)|[Hc _]]]; [| |lia].
    + rewrite bool_decide_eq_false_2 by done. cbn [fst snd].
      fold addr. rewrite Hstored. eexists _, _, _. split; [reflexivity|].
      cbn [contract_abis contracts after].
      split; [apply lookup_insert_eq|]. split; [done|].
      by apply set_contract_abi_row.
    + cbn [fst snd]. fold addr. rewrite Hstored.
      eexists _, _, _. split; [reflexivity|].
      cbn [contract_abis contracts after].
      split; [apply lookup_insert_eq|].
      apply matching_singleton in Hm as [_ Ha].
      split; [by rewrite assign_defaults_abi|].
      by apply set_contract_abi_row.
Qed.

Lemma sync_abi_from_api_outcomes_witness :
  (exists w',
      sync_abi_from_api Examples.explorer_down Examples.stored_token None
        Examples.token_world
      = (Raised EtherscanClientConfigurationError, w')
      /\ contracts w' = contracts Examples.token_world
      /\ contract_abis w' = contract_abis Examples.token_world)
  /\ (exists pk row w',
         sync_abi_from_api Examples.canonical_down Examples.stored_token
           (Some 1%N) Examples.token_world
         = (Returned (mkContract Examples.token "Dai" "" "" (Some pk), true),
            w')
         /\ contract_abis w' !! pk = Some row /\ abi row = Examples.erc20
         /\ contracts w' !! Examples.token
            = Some (mkContract Examples.token "Dai" "" "" (Some pk))).
Proof.
  split.
  - destruct (sync_abi_from_api_outcomes Examples.explorer_down
                Examples.stored_token None Examples.token_world)
      as (_ & _ & Hraises & _).
    apply Hraises; [left|]; reflexivity.
  - destruct (sync_abi_from_api_outcomes Examples.canonical_down
                Examples.stored_token (Some 1%N) Examples.token_world)
      as (_ & _ & _ & Htrue).
    apply (Htrue Examples.erc20 Examples.stored_token).
    + right. split; [right; reflexivity|].
      split; [reflexivity|]. split; reflexivity.
    + vm_compute. lia.
    + reflexivity.
Defined.

(** C9, where the code departs from it.  Two workers resolve the same
    content, which is not [None] (the branch is entered with content
    that tests true) and which no record holds yet, and the database
    answers their queries in turn: lookup, lookup, insert, insert.  Both
    lookups find nothing, both inserts go through, and the content is
    stored twice. *)
Theorem interleaved_lookup_then_insert_duplicates a (t : abi_table) :
  a <> JNull ->
  Abis.count a t = 0 ->
  let s := Race.run a [Race.T1; Race.T2; Race.T1; Race.T2] (Race.start t) in
  Race.finished s = true
  /\ Abis.count a (Race.table s) = 2
  /\ (exists pk1 pk2 row1 row2,
         pk1 <> pk2
         /\ Race.worker1 s = Race.Finished (Returned (pk1, row1))
         /\ Race.worker2 s = Race.Finished (Returned (pk2, row2))
         /\ abi row1 = a /\ abi row2 = a).
Proof.
  intros Hnull Hnone s. subst s.
  apply matching_empty_count in Hnone.
  destruct (get_cases a t) as [[_ Hget]|[(pk & row & Hm & _)|[Hc _]]].
  - cbn. rewrite Hget. cbn. rewrite Hget. cbn.
    rewrite !bool_decide_eq_false_2 by done. cbn.
    split; [done|]. split.
    + rewrite !count_insert_fresh. cbn.
      rewrite !decide_True by done.
      apply matching_empty_count in Hnone. by rewrite Hnone.
    + eexists _, _, _, _. split; [|done].
      intros Heq.
      pose proof (is_fresh (dom (<[fresh (dom t) := mkContractAbi a "" 100]> t)))
        as Hfresh.
      apply Hfresh. rewrite <- Heq. set_solver.
  - rewrite Hnone in Hm. symmetry in Hm.
    by apply map_non_empty_singleton in Hm.
  - apply matching_empty_count in Hnone. lia.
Qed.

Lemma interleaved_lookup_then_insert_duplicates_witness :
  Race.finished
    (Race.run Examples.erc20 [Race.T1; Race.T2; Race.T1; Race.T2]
       (Race.start ∅)) = true
  /\ Abis.count Examples.erc20
       (Race.table
          (Race.run Examples.erc20 [Race.T1; Race.T2; Race.T1; Race.T2]
             (Race.start ∅))) = 2.
Proof.
  destruct (interleaved_lookup_then_insert_duplicates Examples.erc20 ∅)
    as (Hfin & Htwo & _); [discriminate|vm_compute; reflexivity|].
  split; [exact Hfin | exact Htwo].
Defined.



(** * Further properties of the module *)

(** ** create_from_address *)

(** Every run of [create_from_address] ends in one of three ways.  It
    returns nothing, and both tables are as they were.  It returns a
    contract: the address was not stored, the new row sits under it with
    empty display name and logo, and a reference it carries points to a
    stored ABI record whose content tests true.  Or an exception leaves
    the method (the explorer's transport error, the manager's
    [MultipleObjectsReturned], the refusal of a stored address), and the
    contract table is as it was. *)
Theorem create_from_address_outcomes E addr network_id w :
  match create_from_address E addr network_id w with
  | (Returned None, w') =>
      contracts w' = contracts w /\ contract_abis w' = contract_abis w
  | (Returned (Some c), w') =>
      contracts w !! addr = None
      /\ address c = addr /\ display_name c = "" /\ logo c = ""
      /\ contracts w' = <[addr := c]> (contracts w)
      /\ (forall pk, contract_abi c = Some pk ->
                     exists row, contract_abis w' !! pk = Some row
                                 /\ truthy (abi row) = true)
  | (Raised e, w') =>
      contracts w' = contracts w
      /\ (e = IOError \/ e = MultipleObjectsReturned \/ e = IntegrityError)
  end.
Proof.
  pose proof (create_from_address_shape E addr network_id w) as H.
  unfold creates_one_contract in H.
  by destruct (create_from_address E addr network_id w) as [[[c|]|e] w'].
Qed.

(** The external calls of [create_from_address] are a prefix of: the
    canonical request, the explorer's set-up with the configured key, the
    explorer's request.  In particular nothing is logged. *)
Theorem create_from_address_events E addr network_id w :
  let evs := new_events w (create_from_address E addr network_id w).2 in
  (evs = [SourcifyGetContractMetadata network_id addr]
   \/ evs = [SourcifyGetContractMetadata network_id addr;
             EtherscanClientInit network_id (ETHERSCAN_API_KEY E)]
   \/ evs = [SourcifyGetContractMetadata network_id addr;
             EtherscanClientInit network_id (ETHERSCAN_API_KEY E);
             EtherscanGetContractAbi network_id addr])
  /\ Forall (fun e => is_logged e = false) evs.
Proof.
  cbn zeta.
  assert (H : let evs := new_events w (create_from_address E addr network_id w).2 in
              evs = [SourcifyGetContractMetadata network_id addr]
              \/ evs = [SourcifyGetContractMetadata network_id addr;
                        EtherscanClientInit network_id (ETHERSCAN_API_KEY E)]
              \/ evs = [SourcifyGetContractMetadata network_id addr;
                        EtherscanClientInit network_id (ETHERSCAN_API_KEY E);
                        EtherscanGetContractAbi network_id addr]).
  { cbn zeta. destruct (sourcify E network_id addr) as [[md|]|] eqn:Hs.
    - rewrite (create_from_address_metadata E addr network_id w md Hs).
      left. apply created_new_events.
    - rewrite create_from_address_fallback by done. cbn zeta.
      destruct (etherscan_configured _ _ _);
        [|right; left; apply new_events_after].
      right; right.
      destruct (etherscan _ _ _) as [a|]; [destruct (truthy a)|];
        first [apply created_new_events | apply new_events_after].
    - rewrite create_from_address_unreachable by done.
      left. apply new_events_after. }
  split; [exact H|].
  destruct H as [->|[->| ->]]; repeat constructor.
Qed.

(** The explorer is asked by [create_from_address] only after the
    canonical provider has answered that it has no metadata. *)
Theorem create_from_address_explorer_only_after_empty E addr network_id w e :
  e ∈ new_events w (create_from_address E addr network_id w).2 ->
  is_explorer_call e = true ->
  sourcify E network_id addr = Fetched None.
Proof.
  intros Hin He.
  destruct (sourcify E network_id addr) as [[md|]|] eqn:Hs; [|done|].
  - rewrite (create_from_address_metadata E addr network_id w md Hs) in Hin.
    rewrite created_new_events in Hin.
    apply list_elem_of_singleton in Hin. by subst e.
  - rewrite create_from_address_unreachable in Hin by done.
    cbn [snd] in Hin. rewrite new_events_after in Hin.
    apply list_elem_of_singleton in Hin. by subst e.
Qed.

Lemma create_from_address_explorer_only_after_empty_witness :
  sourcify (canonical_empty Examples.canonical_down) 1 Examples.token
  = Fetched None.
Proof.
  apply (create_from_address_explorer_only_after_empty
           (canonical_empty Examples.canonical_down) Examples.token 1
           Examples.empty_world (EtherscanGetContractAbi 1 Examples.token)).
  - vm_compute. set_solver.
  - reflexivity.
Defined.
(** ** Invariants of the tables *)

(** [create_from_address], run on a table in which no content is stored
    twice, leaves such a table. *)
Theorem create_from_address_keeps_contents_unique E addr network_id w :
  abi_unique (contract_abis w) ->
  abi_unique (contract_abis (create_from_address E addr network_id w).2).
Proof.
  intros Hu.
  destruct (create_from_address_abi_step E addr network_id w)
    as [->|[(a & d & ->)|(a & ->)]];
    [done|by apply update_or_create_unique|by apply lookup_then_insert_unique].
Qed.

Lemma create_from_address_keeps_contents_unique_witness :
  abi_unique
    (contract_abis
       (create_from_address Examples.verified Examples.other_token 1
          Examples.linked_world).2).
Proof.
  apply (create_from_address_keeps_contents_unique Examples.verified Examples.other_token 1
           Examples.linked_world).
  apply abi_unique_singleton.
Defined.

(** So does [sync_abi_from_api]. *)
Theorem sync_abi_from_api_keeps_contents_unique E self network w :
  abi_unique (contract_abis w) ->
  abi_unique (contract_abis (sync_abi_from_api E self network w).2).
Proof.
  intros Hu.
  destruct (sync_abi_from_api_abi_step E self network w)
    as [->|(a & d & ->)]; [done|by apply update_or_create_unique].
Qed.

Lemma sync_abi_from_api_keeps_contents_unique_witness :
  abi_unique
    (contract_abis
       (sync_abi_from_api Examples.canonical_down Examples.linked_token None
          Examples.linked_world).2).
Proof.
  apply (sync_abi_from_api_keeps_contents_unique Examples.canonical_down
           Examples.linked_token None Examples.linked_world).
  apply abi_unique_singleton.
Defined.

(** When every contract row sits under its own address and references
    a stored ABI record, if any, the same holds after
    [create_from_address], however it ends. *)
Theorem create_from_address_keeps_references E addr network_id w :
  keyed_by_address (contracts w) -> references_stored w ->
  keyed_by_address (contracts (create_from_address E addr network_id w).2)
  /\ references_stored (create_from_address E addr network_id w).2.
Proof.
  intros Hkey Href.
  pose proof (create_from_address_shape E addr network_id w) as H.
  pose proof (create_from_address_abi_dom E addr network_id w) as Hdom.
  unfold creates_one_contract in H.
  destruct (create_from_address E addr network_id w) as [[[c|]|e] w'];
    cbn [fst snd] in *.
  - destruct H as (Hnew & Haddr & _ & _ & Hcs & Hpk). split.
    + intros k c'. rewrite Hcs.
      intros [[<- <-]|[_ Hk]]%lookup_insert_Some; [done|by apply Hkey].
    + intros k c' pk. rewrite Hcs.
      intros [[<- <-]|[_ Hk]]%lookup_insert_Some Hfk.
      * destruct (Hpk pk Hfk) as (row & -> & _). by eexists.
      * eapply is_Some_dom_mono; [exact Hdom|]. by eapply Href.
  - destruct H as [Hcs Habis]. split.
    + by rewrite Hcs.
    + intros k c' pk. rewrite Hcs, Habis. apply Href.
  - destruct H as [Hcs _]. split.
    + by rewrite Hcs.
    + intros k c' pk. rewrite Hcs. intros Hk Hfk.
      eapply is_Some_dom_mono; [exact Hdom|]. by eapply Href.
Qed.

(** And after [sync_abi_from_api], however it ends. *)
Theorem sync_abi_from_api_keeps_references E self network w :
  keyed_by_address (contracts w) -> references_stored w ->
  keyed_by_address (contracts (sync_abi_from_api E self network w).2)
  /\ references_stored (sync_abi_from_api E self network w).2.
Proof.
  intros Hkey Href.
  pose proof (sync_abi_from_api_writes E self network w) as H.
  pose proof (sync_abi_from_api_abi_dom E self network w) as Hdom.
  unfold writes_only_contract_abi in H.
  destruct (sync_abi_from_api E self network w) as [[[self' [|]]|e] w'];
    cbn [fst snd] in *.
  - destruct H as (pk & Hpk & _ & _ & Hcs). split.
    + intros k c'. rewrite Hcs.
      destruct (decide (k = address self)) as [->|Hne].
      * rewrite lookup_alter_eq.
        destruct (contracts w !! address self) as [stored|] eqn:Hs; [|done].
        intros [= <-]. cbn. by apply Hkey.
      * rewrite lookup_alter_ne by done. by apply Hkey.
    + intros k c' pk'. rewrite Hcs.
      destruct (decide (k = address self)) as [->|Hne].
      * rewrite lookup_alter_eq.
        destruct (contracts w !! address self) as [stored|] eqn:Hs; [|done].
        intros [= <-]. cbn. by intros [= <-].
      * rewrite lookup_alter_ne by done. intros Hk Hfk.
        eapply is_Some_dom_mono; [exact Hdom|]. by eapply Href.
  - destruct H as (_ & Hcs & Habis). split.
    + by rewrite Hcs.
    + intros k c' pk. rewrite Hcs, Habis. apply Href.
  - destruct H as [Hcs _]. split.
    + by rewrite Hcs.
    + intros k c' pk. rewrite Hcs. intros Hk Hfk.
      eapply is_Some_dom_mono; [exact Hdom|]. by eapply Href.
Qed.

Lemma create_from_address_keeps_references_witness :
  keyed_by_address
    (contracts (create_from_address Examples.verified Examples.other_token 1
                  Examples.linked_world).2)
  /\ references_stored
       (create_from_address Examples.verified Examples.other_token 1 Examples.linked_world).2.
Proof.
  apply (create_from_address_keeps_references Examples.verified Examples.other_token 1
           Examples.linked_world).
  - apply (keyed_singleton Examples.linked_token).
  - apply linked_world_references.
Defined.

Lemma sync_abi_from_api_keeps_references_witness :
  keyed_by_address
    (contracts (sync_abi_from_api Examples.canonical_down
                  Examples.linked_token None Examples.linked_world).2)
  /\ references_stored
       (sync_abi_from_api Examples.canonical_down Examples.linked_token None
          Examples.linked_world).2.
Proof.
  apply (sync_abi_from_api_keeps_references Examples.canonical_down
           Examples.linked_token None Examples.linked_world).
  - apply (keyed_singleton Examples.linked_token).
  - apply linked_world_references.
Defined.
(** ** sync_abi_from_api *)

(** Running [sync_abi_from_api] again after it has returned [True], on
    the object and the tables it has left and with providers that answer
    as before, returns [True] again and changes neither table, provided
    no content was stored twice to begin with. *)
Theorem sync_abi_from_api_twice E self network w self' w' :
  abi_unique (contract_abis w) ->
  sync_abi_from_api E self network w = (Returned (self', true), w') ->
  exists w'',
    sync_abi_from_api E self' network w' = (Returned (self', true), w'')
    /\ contract_abis w'' = contract_abis w'
    /\ contracts w'' = contracts w'.
Proof.
  intros Hu H. rewrite sync_abi_from_api_answer in H.
  destruct (providers_answer E (default (node_network E) network) (address self))
    as [a d evs|evs|evs] eqn:Hans; [|done..].
  unfold linked in H.
  destruct (store_content a d (contract_abis w))
    as [[[obj flag]|e] t'] eqn:Hfirst; cbn [fst snd] in H; [|done].
  destruct (contracts w !! address self) as [stored|] eqn:Hst; [|done].
  injection H as <- <-.
  rewrite sync_abi_from_api_answer.
  cbn [address Contracts.set_contract_abi]. rewrite Hans.
  unfold linked, after. cbn [contract_abis contracts address].
  rewrite (store_content_again a d _ _ _ _ Hu Hfirst). cbn [fst snd].
  rewrite lookup_alter_eq, Hst. cbn.
  eexists. split; [reflexivity|]. split; [done|]. cbn.
  apply map_eq. intros k. destruct (decide (k = address self)) as [->|Hne].
  - rewrite !lookup_alter_eq, Hst. done.
  - by rewrite !lookup_alter_ne.
Qed.

Lemma sync_abi_from_api_twice_witness :
  exists w'',
    sync_abi_from_api Examples.verified Examples.linked_token (Some 1%N)
      (mkWorld (contract_abis Examples.linked_world)
               (contracts Examples.linked_world)
               [SourcifyGetContractMetadata 1 Examples.token])
    = (Returned (Examples.linked_token, true), w'')
    /\ contract_abis w'' = contract_abis Examples.linked_world
    /\ contracts w'' = contracts Examples.linked_world.
Proof.
  apply (sync_abi_from_api_twice Examples.verified Examples.stored_token
           (Some 1%N) Examples.token_world Examples.linked_token
           (mkWorld (contract_abis Examples.linked_world)
                    (contracts Examples.linked_world)
                    [SourcifyGetContractMetadata 1 Examples.token])).
  - apply abi_unique_empty.
  - vm_compute. reflexivity.
Defined.

(** [sync_abi_from_api] turns to the explorer exactly when the canonical
    provider has come up with no metadata, be it that it knows none or
    that it cannot be reached.  Metadata of any content keeps the
    explorer out. *)
Theorem sync_abi_from_api_explorer_iff_no_metadata E self network w :
  Exists (fun e => is_explorer_call e = true)
         (new_events w (sync_abi_from_api E self network w).2)
  <-> forall md,
        sourcify E (default (node_network E) network) (address self)
        <> Fetched (Some md).
Proof.
  destruct (sourcify E (default (node_network E) network) (address self))
    as [[md|]|] eqn:Hs.
  - rewrite (sync_abi_from_api_metadata _ _ _ _ md Hs), linked_new_events.
    split.
    + intros [He|Hno]%Exists_cons; [done|]. by apply Exists_nil in Hno.
    + intros Hno. by destruct (Hno md).
  - split; [done|]. intros _.
    rewrite sync_abi_from_api_fallback by auto. cbn zeta.
    destruct (etherscan_configured _ _ _);
      [|cbn [snd]; rewrite new_events_after;
        apply Exists_cons_tl, Exists_cons_hd; done].
    destruct (etherscan _ _ _) as [a|]; [destruct (truthy a)|];
      rewrite ?linked_new_events, ?unresolved_new_events;
      apply Exists_cons_tl, Exists_cons_hd; done.
  - split; [done|]. intros _.
    rewrite sync_abi_from_api_fallback by auto. cbn zeta.
    destruct (etherscan_configured _ _ _);
      [|cbn [snd]; rewrite new_events_after;
        apply Exists_cons_tl, Exists_cons_hd; done].
    destruct (etherscan _ _ _) as [a|]; [destruct (truthy a)|];
      rewrite ?linked_new_events, ?unresolved_new_events;
      apply Exists_cons_tl, Exists_cons_hd; done.
Qed.

(** [sync_abi_from_api] returns [False] only when both providers have
    been asked: the canonical one had no metadata, and the explorer,
    set up without error, had no content or could not be reached. *)
Theorem sync_abi_from_api_false_after_both E self network w self' w' :
  sync_abi_from_api E self network w = (Returned (self', false), w') ->
  let n := default (node_network E) network in
  (sourcify E n (address self) = Fetched None
   \/ sourcify E n (address self) = TransportError)
  /\ etherscan_configured E n None = true
  /\ (etherscan E n (address self) = TransportError
      \/ exists a, etherscan E n (address self) = Fetched a
                   /\ truthy a = false)
  /\ new_events w w'
     = [SourcifyGetContractMetadata n (address self);
        EtherscanClientInit n None;
        EtherscanGetContractAbi n (address self)].
Proof.
  intros H n. subst n.
  assert (Hlinked : forall evs r, linked self w evs r <> (Returned (self', false), w')).
  { intros evs r. unfold linked.
    by destruct r.1; [destruct (contracts w !! address self)|]. }
  destruct (sourcify E (default (node_network E) network) (address self))
    as [[md|]|] eqn:Hs.
  - rewrite (sync_abi_from_api_metadata _ _ _ _ md Hs) in H.
    by apply Hlinked in H.
  - rewrite sync_abi_from_api_fallback in H by auto. cbn zeta in H.
    destruct (etherscan_configured _ _ _); [|done].
    destruct (etherscan _ _ _) as [a|] eqn:He;
      [destruct (truthy a) eqn:Ht; [by apply Hlinked in H|]|];
      injection H as <- <-; rewrite new_events_after; eauto 10.
  - rewrite sync_abi_from_api_fallback in H by auto. cbn zeta in H.
    destruct (etherscan_configured _ _ _); [|done].
    destruct (etherscan _ _ _) as [a|] eqn:He;
      [destruct (truthy a) eqn:Ht; [by apply Hlinked in H|]|];
      injection H as <- <-; rewrite new_events_after; eauto 10.
Qed.

Lemma sync_abi_from_api_false_after_both_witness :
  (sourcify Examples.both_silent 1 Examples.token
   = Fetched None
   \/ sourcify Examples.both_silent 1 Examples.token
      = TransportError)
  /\ etherscan_configured Examples.both_silent 1 None = true
  /\ (etherscan Examples.both_silent 1 Examples.token
      = TransportError
      \/ exists a,
           etherscan Examples.both_silent 1 Examples.token
           = Fetched a /\ truthy a = false)
  /\ new_events Examples.token_world
       (mkWorld ∅ {[Examples.token := Examples.stored_token]}
          [SourcifyGetContractMetadata 1 Examples.token;
           EtherscanClientInit 1 None;
           EtherscanGetContractAbi 1 Examples.token])
     = [SourcifyGetContractMetadata 1 Examples.token;
        EtherscanClientInit 1 None;
        EtherscanGetContractAbi 1 Examples.token].
Proof.
  apply (sync_abi_from_api_false_after_both
           Examples.both_silent Examples.stored_token
           (Some 1%N) Examples.token_world Examples.stored_token
           (mkWorld ∅ {[Examples.token := Examples.stored_token]}
              [SourcifyGetContractMetadata 1 Examples.token;
               EtherscanClientInit 1 None;
               EtherscanGetContractAbi 1 Examples.token])).
  vm_compute. reflexivity.
Defined.
(** ** ContractAbi.clean *)

(** [clean] passes exactly when every stored record with the same
    content is the object itself. *)
Theorem clean_passes_iff self_pk a (t : abi_table) :
  (Abis.clean self_pk a t).1 = Returned None
  <-> forall pk row, t !! pk = Some row -> abi row = a -> self_pk = Some pk.
Proof.
  rewrite <- others_empty_iff.
  destruct (clean_cases self_pk a t)
    as [[Hm ->]|[(pk & row & Hm & ->)|[Hc ->]]]; cbn [fst].
  - done.
  - split; [done|]. rewrite Hm. intros Hempty.
    by apply map_non_empty_singleton in Hempty.
  - split; [done|]. intros Hempty%matching_empty_count. lia.
Qed.

(** When [clean] refuses, the record it names is a stored record other
    than the object, with the same content, and the description in the
    message is that record's. *)
Theorem clean_reports_stored_duplicate self_pk a (t : abi_table) pk d :
  (Abis.clean self_pk a t).1 = Returned (Some (pk, d)) ->
  exists row,
    t !! pk = Some row /\ abi row = a /\ description row = d
    /\ self_pk <> Some pk.
Proof.
  destruct (clean_cases self_pk a t)
    as [[Hm ->]|[(pk' & row & Hm & ->)|[Hc ->]]]; cbn [fst]; [done| |done].
  intros [= <- <-].
  apply matching_singleton in Hm as [[Hpk Hne]%others_lookup Ha].
  by exists row.
Qed.

Lemma clean_reports_stored_duplicate_witness :
  exists row,
    contract_abis Examples.linked_world !! 1%positive = Some row
    /\ abi row = Examples.erc20 /\ description row = "Dai"
    /\ (None : option positive) <> Some 1%positive.
Proof.
  apply (clean_reports_stored_duplicate None Examples.erc20
           (contract_abis Examples.linked_world) 1%positive "Dai").
  vm_compute. reflexivity.
Defined.

(** In a table that stores no content twice, every stored record passes
    its own [clean]; the table is not touched. *)
Theorem clean_of_stored_record (t : abi_table) pk row :
  abi_unique t -> t !! pk = Some row ->
  Abis.clean (Some pk) (abi row) t = (Returned None, t).
Proof.
  intros Hu Hpk.
  assert (Hone : Abis.count (abi row) t = 1).
  { pose proof (Hu (abi row)). pose proof (count_pos _ t pk row Hpk eq_refl). lia. }
  pose proof (count_one_singleton _ t pk row Hone Hpk eq_refl) as Hm.
  assert (Hempty : Abis.matching (abi row) (delete pk t) = ∅).
  { apply (others_empty_iff (Some pk)). intros pk' row' Hpk' Ha'.
    assert (Hin : Abis.matching (abi row) t !! pk' = Some row')
      by by apply matching_lookup.
    rewrite Hm in Hin. by apply lookup_singleton_Some in Hin as [-> _]. }
  destruct (clean_cases (Some pk) (abi row) t)
    as [[_ ->]|[(pk' & row' & Hm' & _)|[Hc _]]]; [done| |].
  - rewrite Hempty in Hm'. symmetry in Hm'.
    by apply map_non_empty_singleton in Hm'.
  - apply matching_empty_count in Hempty. lia.
Qed.

Lemma clean_of_stored_record_witness :
  Abis.clean (Some 1%positive) Examples.erc20
    (contract_abis Examples.linked_world)
  = (Returned None, contract_abis Examples.linked_world).
Proof.
  apply (clean_of_stored_record (contract_abis Examples.linked_world)
           1%positive (mkContractAbi Examples.erc20 "Dai" 100)).
  - apply abi_unique_singleton.
  - reflexivity.
Defined.

(** ** ContractAbi.abi_functions *)

(** On an ABI that is a list, [abi_functions] returns exactly when every
    descriptor has a ['type'] and every descriptor of type ['function']
    has a ['name']; a descriptor of another type needs no name. *)
Theorem abi_functions_returns_iff self xs :
  abi self = JArr xs ->
  (exists names, abi_functions self = Returned names)
  <-> Forall (fun x => exists ty,
                getitem x "type" = Returned ty
                /\ (ty = JStr "function" ->
                    exists nm, getitem x "name" = Returned nm)) xs.
Proof.
  intros Habi. unfold abi_functions. rewrite Habi. cbn [iterate]. clear Habi.
  induction xs as [|x xs IH]; cbn [function_names].
  - split; [constructor|by eexists].
  - destruct (getitem x "type") as [ty|e] eqn:Hty.
    + case_bool_decide as Hfn.
      * destruct (getitem x "name") as [nm|e] eqn:Hnm.
        -- destruct (function_names xs) as [names|e].
           ++ split; [|by eexists]. intros _.
              constructor; [|apply IH; by eexists].
              exists ty. split; [done|]. intros _. by exists nm.
           ++ split; [by intros [? ?]|].
              intros [_ Hxs%IH]%Forall_cons. by destruct Hxs.
        -- split; [by intros [? ?]|].
           intros [(ty' & Hty' & Hname) _]%Forall_cons.
           rewrite Hty in Hty'. injection Hty' as <-.
           destruct (Hname Hfn) as [nm Hnm']. congruence.
      * rewrite IH. split.
        -- intros Hxs. constructor; [|done]. exists ty. by split.
        -- by intros [_ Hxs]%Forall_cons.
    + split; [by intros [? ?]|].
      intros [(ty' & Hty' & _) _]%Forall_cons. congruence.
Qed.

Lemma abi_functions_returns_iff_witness :
  (exists names,
      abi_functions (mkContractAbi Examples.erc20 "Dai" 100) = Returned names)
  <-> Forall (fun x => exists ty,
                getitem x "type" = Returned ty
                /\ (ty = JStr "function" ->
                    exists nm, getitem x "name" = Returned nm))
             [JObj [("name", JStr "transfer"); ("type", JStr "function")];
              JObj [("name", JStr "Transfer"); ("type", JStr "event")]].
Proof.
  apply (abi_functions_returns_iff (mkContractAbi Examples.erc20 "Dai" 100)).
  reflexivity.
Defined.

(** When it returns, the names are those of the function descriptors:
    a value is in the result exactly when some descriptor of type
    ['function'] carries it as ['name']. *)
Theorem abi_functions_names self xs names nm :
  abi self = JArr xs ->
  abi_functions self = Returned names ->
  nm ∈ names
  <-> exists x, x ∈ xs
                /\ getitem x "type" = Returned (JStr "function")
                /\ getitem x "name" = Returned nm.
Proof.
  intros Habi. unfold abi_functions. rewrite Habi. cbn [iterate]. clear Habi.
  revert names. induction xs as [|x xs IH]; intros names; cbn [function_names].
  - intros [= <-]. split; [by intros ?%elem_of_nil|].
    by intros (x & ?%elem_of_nil & _).
  - destruct (getitem x "type") as [ty|e] eqn:Hty; [|done].
    case_bool_decide as Hfn.
    + destruct (getitem x "name") as [nm'|e] eqn:Hnm; [|done].
      destruct (function_names xs) as [names'|e]; [|done].
      intros [= <-]. rewrite elem_of_cons, (IH names' eq_refl). split.
      * intros [->|(y & Hy & Hyt & Hyn)].
        -- exists x. rewrite elem_of_cons. subst ty. eauto.
        -- exists y. rewrite elem_of_cons. eauto.
      * intros (y & [->|Hy]%elem_of_cons & Hyt & Hyn).
        -- left. congruence.
        -- right. eauto.
    + intros Hxs. rewrite (IH names Hxs). split.
      * intros (y & Hy & Hyt & Hyn). exists y. rewrite elem_of_cons. eauto.
      * intros (y & [->|Hy]%elem_of_cons & Hyt & Hyn); [congruence|eauto].
Qed.

Lemma abi_functions_names_witness :
  JStr "transfer" ∈ [JStr "transfer"]
  <-> exists x,
        x ∈ [JObj [("name", JStr "transfer"); ("type", JStr "function")];
             JObj [("name", JStr "Transfer"); ("type", JStr "event")]]
        /\ getitem x "type" = Returned (JStr "function")
        /\ getitem x "name" = Returned (JStr "transfer").
Proof.
  apply (abi_functions_names (mkContractAbi Examples.erc20 "Dai" 100));
    reflexivity.
Defined.
(** ** Logos *)



(** The path handed back ends in a suffix of [filename]: the file name
    splits into a root and an extension, nothing lost, and the path is
    the logo directory, the address and that extension. *)
Theorem get_contract_logo_path_extension instance filename :
  exists root extension,
    filename = root +:+ extension
    /\ get_contract_logo_path instance filename
       = "contracts/logos/" +:+ address instance +:+ extension.
Proof.
  exists (os_path.splitext filename).1, (os_path.splitext filename).2.
  split; [|done]. unfold os_path.splitext.
  destruct (_ && _); cbn [fst snd].
  - symmetry. apply substring_cut.
  - induction filename as [|c s IH]; [done|].
    rewrite append_cons. by rewrite <- IH.
Qed.

(** [with_logo] and [without_logo] split the table: every row is in
    exactly one of them. *)
Theorem with_logo_without_logo_partition (t : contract_table) :
  Contracts.with_logo t ∪ Contracts.without_logo t = t
  /\ Contracts.with_logo t ##ₘ Contracts.without_logo t.
Proof.
  unfold Contracts.with_logo, Contracts.without_logo. split.
  - apply map_eq. intros k. rewrite lookup_union.
    destruct (t !! k) as [c|] eqn:Hk.
    + destruct (Contracts.no_logo_query c) eqn:Hq.
      * rewrite (proj2 (map_lookup_filter_None _ _ _)) by (right; intros c' Hc'; cbn; congruence).
        rewrite (proj2 (map_lookup_filter_Some _ _ _ _)) by done. done.
      * rewrite (proj2 (map_lookup_filter_Some _ t k c)) by done.
        rewrite (proj2 (map_lookup_filter_None _ _ _)) by (right; intros c' Hc'; cbn; congruence).
        done.
    + rewrite !(proj2 (map_lookup_filter_None _ _ _)) by by left. done.
  - apply map_disjoint_spec. intros k c c'.
    intros [Hk Hq]%map_lookup_filter_Some [Hk' Hq']%map_lookup_filter_Some.
    cbn in *. congruence.
Qed.



(** What [fix_missing_logos] syncs: the number it returns is the number
    of rows without a logo for which the storage holds a file that is
    not empty, and exactly those rows get the file as their logo; the
    other rows without a logo stay without. *)
Theorem fix_missing_logos_syncs_found E w n w' :
  keyed_by_address (contracts w) ->
  fix_missing_logos E w = (Returned n, w') ->
  n = size (filter (fun kv => logo_found E kv.2 = true)
                   (Contracts.without_logo (contracts w)))
  /\ (forall k c,
         contracts w !! k = Some c -> logo c = "" ->
         contracts w' !! k
         = Some (if logo_found E c
                 then Contracts.set_logo (logo_file c) c else c)).
Proof.
  intros Hkey Hrun.
  destruct (fix_missing_logos_returned E w n w' Hkey Hrun)
    as (_ & -> & evs & ->).
  set (todo := (map_to_list (Contracts.without_logo (contracts w))).*2).
  split.
  - subst todo.
    symmetry. apply (size_filter_values (fun c => logo_found E c = true)).
  - intros k c Hk Hno. cbn [contracts after].
    rewrite logos_fixed_lookup, Hk.
    pose proof (Hkey k c Hk) as Ha. subst k.
    rewrite logo_found_at, logo_file_path.
    destruct (found_at E (address c)) eqn:Hf.
    + rewrite bool_decide_eq_true_2; [done|]. split; [done|].
      apply list_elem_of_fmap_2. by apply (without_logo_rows _ _ Hkey).
    + rewrite bool_decide_eq_false_2; [done|]. by intros [? _].
Qed.

Lemma fix_missing_logos_syncs_found_witness :
  1 = size (filter (fun kv => logo_found Examples.logos_uploaded kv.2 = true)
                   (Contracts.without_logo (contracts Examples.linked_world)))
  /\ (forall k c,
         contracts Examples.linked_world !! k = Some c -> logo c = "" ->
         contracts
           (fix_missing_logos Examples.logos_uploaded Examples.linked_world).2
         !! k
         = Some (if logo_found Examples.logos_uploaded c
                 then Contracts.set_logo (logo_file c) c else c)).
Proof.
  apply (fix_missing_logos_syncs_found Examples.logos_uploaded
           Examples.linked_world).
  - apply (keyed_singleton Examples.linked_token).
  - vm_compute. reflexivity.
Defined.

(** Running [fix_missing_logos] again, with the storage answering as
    before, syncs nothing more: it returns 0 and leaves both tables. *)
Theorem fix_missing_logos_twice E w n w' :
  keyed_by_address (contracts w) ->
  fix_missing_logos E w = (Returned n, w') ->
  exists w'',
    fix_missing_logos E w' = (Returned 0, w'')
    /\ contracts w'' = contracts w'
    /\ contract_abis w'' = contract_abis w'.
Proof.
  intros Hkey Hrun.
  destruct (fix_missing_logos_returned E w n w' Hkey Hrun)
    as (Hreturns & _ & evs & ->).
  set (todo := (map_to_list (Contracts.without_logo (contracts w))).*2) in *.
  unfold fix_missing_logos. cbn [contracts after].
  pose proof (logos_fixed_keyed E todo _ Hkey) as Hkey'.
  set (t' := logos_fixed E todo (contracts w)) in *.
  set (todo' := (map_to_list (Contracts.without_logo t')).*2).
  assert (Hold : forall c, c ∈ todo' ->
                 logo_found E c = true \/ c ∈ todo).
  { intros c Hc.
    apply (without_logo_rows _ _ Hkey') in Hc as [Hc Hno].
    subst t'. rewrite logos_fixed_lookup in Hc.
    case_bool_decide as Hb.
    - destruct (contracts w !! address c) as [c0|]; [|done].
      injection Hc as Hc. rewrite <- Hc in Hno. cbn [logo Contracts.set_logo] in Hno.
      by apply logo_path_nonempty in Hno.
    - right. by apply (without_logo_rows _ _ Hkey). }
  assert (Hnone : Forall (fun c => logo_found E c = false) todo').
  { apply Forall_forall. intros c Hc.
    pose proof Hc as Hc'.
    apply (without_logo_rows _ _ Hkey') in Hc' as [Hc' Hno].
    subst t'. rewrite logos_fixed_lookup in Hc'.
    case_bool_decide as Hb.
    - destruct (contracts w !! address c) as [c0|]; [|done].
      injection Hc' as Hc'. rewrite <- Hc' in Hno.
      cbn [logo Contracts.set_logo] in Hno.
      by apply logo_path_nonempty in Hno.
    - rewrite logo_found_at. destruct (found_at E (address c)) eqn:Hf; [|done].
      destruct Hb. split; [done|].
      apply list_elem_of_fmap_2. by apply (without_logo_rows _ _ Hkey). }
  assert (Hquiet : escaping E todo' = None).
  { apply escaping_None, Forall_forall. intros c Hc.
    destruct (Hold c Hc) as [Hfound|Hin].
    - rewrite Forall_forall in Hnone. rewrite (Hnone c Hc) in Hfound. done.
    - apply escaping_None in Hreturns. rewrite Forall_forall in Hreturns.
      by apply Hreturns. }
  destruct (fix_each_run E todo' 0 (after w (contract_abis w) t' evs))
    as (evs' & -> & _).
  { apply Forall_forall. intros c Hc.
    apply (without_logo_rows _ _ Hkey') in Hc as [Hc _].
    cbn [contracts after]. by eexists. }
  rewrite Hquiet, (visited_all E todo' Hquiet).
  destruct (logos_fixed_none E todo' t' Hnone) as [Hsame Hfilter].
  cbn [contracts contract_abis after]. rewrite Hsame, Hfilter.
  eexists. split; [reflexivity|]. done.
Qed.

Lemma fix_missing_logos_twice_witness :
  exists w'',
    fix_missing_logos Examples.logos_uploaded
      (fix_missing_logos Examples.logos_uploaded Examples.linked_world).2
    = (Returned 0, w'')
    /\ contracts w''
       = contracts
           (fix_missing_logos Examples.logos_uploaded Examples.linked_world).2
    /\ contract_abis w''
       = contract_abis
           (fix_missing_logos Examples.logos_uploaded Examples.linked_world).2.
Proof.
  apply (fix_missing_logos_twice Examples.logos_uploaded Examples.linked_world 1).
  - apply (keyed_singleton Examples.linked_token).
  - vm_compute. reflexivity.
Defined.
(** ** The lookup-then-insert, alone and in sequence *)

Lemma get_found a (t : abi_table) pk row :
  t !! pk = Some row -> abi row = a -> Abis.count a t = 1 ->
  Abis.get a t = (Returned (pk, row), t).
Proof.
  intros Hpk Ha Hc.
  pose proof (count_one_singleton a t pk row Hc Hpk Ha) as Hm.
  destruct (get_cases a t) as [[Hm' _]|[(pk' & row' & Hm' & Heq)|[Hc' _]]].
  - rewrite Hm in Hm'. by apply map_non_empty_singleton in Hm'.
  - rewrite Hm in Hm'.
    assert (Hl : ({[pk' := row']} : abi_table) !! pk = Some row).
    { rewrite <- Hm'. apply lookup_singleton_eq. }
    apply lookup_singleton_Some in Hl as [-> ->]. exact Heq.
  - lia.
Qed.

(** A worker whose two queries are answered without another query in
    between does what the code of [create_from_address] does in one go. *)
Lemma worker_alone_is_lookup_then_insert a (t : abi_table) :
  let first := Race.step a Race.Lookup t in
  let second := Race.step a first.1 first.2 in
  second = (Race.Finished (lookup_then_insert a t).1,
            (lookup_then_insert a t).2).
Proof.
  cbn zeta. unfold lookup_then_insert, try_except. cbn [Race.step].
  destruct (get_cases a t) as [[_ ->]|[(pk & row & _ & ->)|[_ ->]]]; done.
Qed.

(** When the two workers run one after the other, for content that is
    not [None] (the branch is entered with content that tests true), on
    a table that holds the content at most once, both end with the same
    record and the content is stored exactly once. *)
Theorem sequential_lookup_then_insert_once a (t : abi_table) :
  a <> JNull ->
  Abis.count a t <= 1 ->
  let s := Race.run a [Race.T1; Race.T1; Race.T2; Race.T2] (Race.start t) in
  Abis.count a (Race.table s) = 1
  /\ exists obj,
       Race.worker1 s = Race.Finished (Returned obj)
       /\ Race.worker2 s = Race.Finished (Returned obj)
       /\ Race.table s !! obj.1 = Some obj.2.
Proof.
  intros Hnull Hle s. subst s.
  cbn [Race.run foldl Race.sched_step Race.start Race.worker1 Race.worker2
       Race.table fst snd Race.step].
  destruct (get_cases a t) as [[Hm Hget]|[(pk & row & Hm & Hget)|[Hc _]]];
    [| |lia]; rewrite Hget; cbn [fst snd Race.step Abis.create];
    rewrite ?bool_decide_eq_false_2 by done; cbn [fst snd].
  - set (pk := fresh (dom t)). set (row := mkContractAbi a "" 100).
    assert (Hone : Abis.count a (<[pk := row]> t) = 1).
    { subst pk. rewrite count_insert_fresh. cbn. rewrite decide_True by done.
      apply matching_empty_count in Hm. by rewrite Hm. }
    rewrite (get_found a (<[pk := row]> t) pk row);
      [|apply lookup_insert_eq|done|done].
    cbn [fst snd Race.step]. split; [done|].
    exists (pk, row). repeat split. apply lookup_insert_eq.
  - pose proof (matching_singleton_count _ _ _ _ Hm) as Hone.
    rewrite Hget. cbn [fst snd Race.step]. split; [done|].
    exists (pk, row). repeat split. by apply matching_singleton in Hm as [? _].
Qed.

Lemma sequential_lookup_then_insert_once_witness :
  Abis.count Examples.erc20
    (Race.table
       (Race.run Examples.erc20 [Race.T1; Race.T1; Race.T2; Race.T2]
          (Race.start ∅))) = 1
  /\ exists obj,
       Race.worker1
         (Race.run Examples.erc20 [Race.T1; Race.T1; Race.T2; Race.T2]
            (Race.start ∅)) = Race.Finished (Returned obj)
       /\ Race.worker2
            (Race.run Examples.erc20 [Race.T1; Race.T1; Race.T2; Race.T2]
               (Race.start ∅)) = Race.Finished (Returned obj)
       /\ Race.table
            (Race.run Examples.erc20 [Race.T1; Race.T1; Race.T2; Race.T2]
               (Race.start ∅)) !! obj.1 = Some obj.2.
Proof.
  apply (sequential_lookup_then_insert_once Examples.erc20 ∅).
  - discriminate.
  - vm_compute. lia.
Defined.

(** ** A contract just created *)

(** A contract [create_from_address] returns has no display name, so its
    main name is the scraped one, and no logo: it is among the rows
    [without_logo] selects, and the rows [with_logo] selects are those
    from before. *)
Theorem create_from_address_without_logo E addr network_id w c w' :
  create_from_address E addr network_id w = (Returned (Some c), w') ->
  get_main_name c = name c
  /\ Contracts.without_logo (contracts w') !! addr = Some c
  /\ Contracts.with_logo (contracts w') = Contracts.with_logo (contracts w).
Proof.
  intros H.
  pose proof (create_from_address_shape E addr network_id w) as Hshape.
  unfold creates_one_contract in Hshape. rewrite H in Hshape.
  cbn [fst snd] in Hshape.
  destruct Hshape as (Hnew & _ & Hdisplay & Hlogo & -> & _).
  assert (Hq : Contracts.no_logo_query c = true).
  { unfold Contracts.no_logo_query. by rewrite Hlogo. }
  split; [|split].
  - unfold get_main_name. by rewrite Hdisplay.
  - unfold Contracts.without_logo. apply map_lookup_filter_Some.
    split; [apply lookup_insert_eq|done].
  - unfold Contracts.with_logo.
    rewrite map_filter_insert_False by (cbn; congruence).
    rewrite map_filter_delete. apply delete_id.
    apply map_lookup_filter_None. by left.
Qed.

Lemma create_from_address_without_logo_witness :
  get_main_name (mkContract Examples.token "Bar" "" "" None) = "Bar"
  /\ Contracts.without_logo
       (contracts
          (create_from_address Examples.name_only Examples.token 1
             Examples.empty_world).2) !! Examples.token
     = Some (mkContract Examples.token "Bar" "" "" None)
  /\ Contracts.with_logo
       (contracts
          (create_from_address Examples.name_only Examples.token 1
             Examples.empty_world).2)
     = Contracts.with_logo (contracts Examples.empty_world).
Proof.
  apply (create_from_address_without_logo Examples.name_only Examples.token 1
           Examples.empty_world (mkContract Examples.token "Bar" "" "" None)
           (create_from_address Examples.name_only Examples.token 1
              Examples.empty_world).2).
  vm_compute. reflexivity.
Defined.
